(** * graphene-mongo: object-type building and connection fields

    A shallow embedding of [graphene_mongo/types.py] and
    [graphene_mongo/fields.py].  Python objects are modelled by the
    observations the two files make of them (truthiness, [isinstance],
    [issubclass], attribute presence); dictionaries whose iteration order
    the code depends on are association lists, keyword arguments are finite
    maps, and a raised exception is the [Raise] branch of [result]. *)

From Stdlib Require Import ZArith List Lia DecimalString.
From stdpp Require Import base strings gmap list pretty sets.

Open Scope Z_scope.

(** ** Python: exceptions, scalars, classes and objects *)

Module Py.

Inductive exn :=
| AssertionError (msg : string)
| TypeError (msg : string)
| AttributeError (msg : string)
| ValueError (msg : string)
| Exception (msg : string).

Inductive result (A : Type) :=
| Ok (a : A)
| Raise (e : exn).
Arguments Ok {A} a.
Arguments Raise {A} e.

#[export] Instance exn_eq_dec : EqDecision exn.
Proof. solve_decision. Defined.

#[export] Instance result_eq_dec `{EqDecision A} : EqDecision (result A).
Proof. solve_decision. Defined.

#[export] Instance result_ret : MRet result := λ A a, Ok a.
#[export] Instance result_bind : MBind result := λ A B k r,
  match r with
  | Ok a => k a
  | Raise e => Raise e
  end.

#[export] Instance result_fmap : FMap result := λ A B f r,
  match r with
  | Ok a => Ok (f a)
  | Raise e => Raise e
  end.

Definition is_ok {A} (r : result A) : bool :=
  match r with Ok _ => true | Raise _ => false end.

Definition raises {A} (r : result A) : bool := negb (is_ok r).

(** [assert c, msg] *)
Definition assert (c : bool) (msg : string) : result unit :=
  if c then Ok tt else Raise (AssertionError msg).

(** Scalars that travel as keyword arguments and document attributes. *)
Inductive value :=
| VNone
| VInt (z : Z)
| VStr (s : string).

#[export] Instance value_eq_dec : EqDecision value.
Proof. solve_decision. Defined.

(** [str(v)] *)
Definition str (v : value) : string :=
  match v with
  | VNone => "None"
  | VInt z => pretty z
  | VStr s => s
  end.

(** [isinstance(v, int)] *)
Definition is_int (v : option value) : bool :=
  match v with Some (VInt _) => true | _ => false end.

(** [isinstance(v, str)] *)
Definition is_str (v : option value) : bool :=
  match v with Some (VStr _) => true | _ => false end.

(** A class: its name and the names of its proper ancestors (its MRO
    without itself).  Classes are identified by name. *)
Record pyclass := mkclass { cls_name : string; cls_bases : list string }.

#[export] Instance pyclass_eq_dec : EqDecision pyclass.
Proof. solve_decision. Defined.

(** [issubclass(c, d)] for two classes. *)
Definition subclass (c d : pyclass) : bool :=
  bool_decide (cls_name d = cls_name c) || bool_decide (cls_name d ∈ cls_bases c).

(** [type(name, (base,), {...})]: a new class deriving from [base]. *)
Definition derive (name : string) (base : pyclass) : pyclass :=
  {| cls_name := name; cls_bases := cls_name base :: cls_bases base |}.

(** An instance with scalar attributes: a document of the store. *)
Record instance := mkinstance { inst_class : pyclass; inst_attrs : gmap string value }.

#[export] Instance instance_eq_dec : EqDecision instance.
Proof. solve_decision. Defined.

(** The registry's table: model name to the name of its output type. *)
Abbreviation Registry := (gmap string string).

Inductive pyobj :=
| PyVal (v : value)
| PyClass (c : pyclass)
| PyInst (o : instance)
| PyDict (d : gmap string value)
| PyRegistry (r : Registry).

Definition None_ : pyobj := PyVal VNone.

#[export] Instance pyobj_eq_dec : EqDecision pyobj.
Proof. solve_decision. Defined.

(** The table of a registry object (empty for a registry instance that is
    not given with its table). *)
Definition table_of (o : pyobj) : Registry :=
  match o with PyRegistry r => r | _ => ∅ end.

Definition object_class : pyclass := mkclass "object" [].
Definition builtin (name : string) : pyclass := mkclass name ["object"].
Definition Registry_class : pyclass := builtin "Registry".

(** [type(o)] *)
Definition type_of (o : pyobj) : pyclass :=
  match o with
  | PyVal VNone => builtin "NoneType"
  | PyVal (VInt _) => builtin "int"
  | PyVal (VStr _) => builtin "str"
  | PyClass _ => builtin "type"
  | PyInst i => inst_class i
  | PyDict _ => builtin "dict"
  | PyRegistry _ => Registry_class
  end.

(** [isinstance(o, c)] *)
Definition isinstance (o : pyobj) (c : pyclass) : bool := subclass (type_of o) c.

(** [issubclass(o, c)]: a [TypeError] when [o] is not a class. *)
Definition issubclass (o : pyobj) (c : pyclass) : result bool :=
  match o with
  | PyClass k => Ok (subclass k c)
  | _ => Raise (TypeError "issubclass() arg 1 must be a class")
  end.

(** [bool(o)]: [None], [0], the empty string and the empty dictionary are
    false; classes and plain instances are true. *)
Definition truthy (o : pyobj) : bool :=
  match o with
  | PyVal VNone => false
  | PyVal (VInt z) => negb (z =? 0)
  | PyVal (VStr s) => negb (bool_decide (s = ""))
  | PyDict d => negb (bool_decide (d = ∅))
  | _ => true
  end.

(** [getattr(o, name)] on the attributes the model carries. *)
Definition getattr (o : pyobj) (name : string) : result value :=
  match o with
  | PyInst i =>
      match inst_attrs i !! name with
      | Some v => Ok v
      | None => Raise (AttributeError name)
      end
  | _ => Raise (AttributeError name)
  end.

(** An insertion-ordered dictionary ([OrderedDict], or a [dict] whose
    iteration order is observed). *)
Abbreviation odict V := (list (string * V)).

Definition keys {V} (d : odict V) : list string := d.*1.

(** [d[k] = v]: overwrite in place, or append. *)
Fixpoint od_set {V} (k : string) (v : V) (d : odict V) : odict V :=
  match d with
  | [] => [(k, v)]
  | (k', v') :: d' => if decide (k = k') then (k, v) :: d' else (k', v') :: od_set k v d'
  end.

(** [d.get(k)] *)
Fixpoint od_get {V} (k : string) (d : odict V) : option V :=
  match d with
  | [] => None
  | (k', v') :: d' => if decide (k = k') then Some v' else od_get k d'
  end.

(** [name in names] on a tuple of names. *)
Definition contains (names : list string) (name : string) : bool :=
  bool_decide (name ∈ names).

(** [bool(names)] on a tuple. *)
Definition nonempty {A} (l : list A) : bool :=
  match l with [] => false | _ => true end.

End Py.
Import Py.


(** ** graphene, as the two files use it

    The library is not part of the repository; what follows is the
    behaviour of the few entry points the code calls. *)

Module Graphene.

(** A value found where an argument is expected.  Every graphene type
    instance carries the creation counter graphene orders it by. *)
Inductive argvalue :=
| Unmounted (type_name : string) (creation_counter : nat)
| Argument (type_name : string) (creation_counter : nat)
| NotAnArgument (creation_counter : nat).

#[export] Instance argvalue_eq_dec : EqDecision argvalue.
Proof. solve_decision. Defined.

Definition arg_counter (a : argvalue) : nat :=
  match a with
  | Unmounted _ c | Argument _ c | NotAnArgument c => c
  end.

(** The type object a field wraps.  [_of_type] is [None] when the object
    has no such attribute (a bare scalar class), and otherwise holds what
    calling it gives: an instance of the wrapped type, or the error of
    calling something that is not a class. *)
Record type_obj := mktype { type_name : string; _of_type : option (result argvalue) }.

#[export] Instance type_obj_eq_dec : EqDecision type_obj.
Proof. solve_decision. Defined.

(** A mounted field of an object type.  [_type] is [None] for a mounted
    value without that attribute (a [Dynamic], resolved lazily). *)
Record gfield := mkfield { field_counter : nat; _type : option type_obj }.

#[export] Instance gfield_eq_dec : EqDecision gfield.
Proof. solve_decision. Defined.

(** Stable insertion by key, as [sorted] orders equal keys. *)
Fixpoint insert_by {A} (key : A → nat) (x : A) (l : list A) : list A :=
  match l with
  | [] => [x]
  | y :: l' => if decide (key x ≤ key y)%nat then x :: y :: l' else y :: insert_by key x l'
  end.

(** [sorted(l, key=key)] *)
Definition sorted_by {A} (key : A → nat) (l : list A) : list A :=
  foldr (insert_by key) [] l.

(** [yank_fields_from_attrs(attrs, _as=Field)]: every value that mounts as
    a field is kept, and the fields are ordered by creation counter. *)
Definition yank_fields_from_attrs (attrs : odict gfield) : odict gfield :=
  sorted_by (λ kv, field_counter kv.2) attrs.

(** [Argument.mounted(unmounted)] and the checks [to_arguments] makes of
    one value. *)
Definition as_argument (default_name : string) (arg : argvalue) : result argvalue :=
  match arg with
  | Unmounted t c => Ok (Argument t c)
  | Argument t c => Ok (Argument t c)
  | NotAnArgument _ => Raise (ValueError ("Unknown argument " +:+ default_name))
  end.

Fixpoint to_arguments_loop (items : odict argvalue) (arguments : odict argvalue)
  : result (odict argvalue) :=
  match items with
  | [] => Ok arguments
  | (default_name, arg) :: rest =>
      arg ← as_argument default_name arg;
      _ ← assert (negb (contains (keys arguments) default_name))
            ("More than one Argument have same name " +:+ default_name);
      to_arguments_loop rest (od_set default_name arg arguments)
  end.

(** [to_arguments(args, extra_args)]: the declared arguments first, then
    the extra ones by creation counter; a name met twice fails the
    assertion.  Keys are argument names, never empty, so
    [default_name or arg.name] is the key. *)
Definition to_arguments (args extra_args : odict argvalue) : result (odict argvalue) :=
  let extra_args := if nonempty extra_args then sorted_by (λ kv, arg_counter kv.2) extra_args else [] in
  to_arguments_loop (args ++ extra_args) [].

Definition graphene_bases : list string := ["BaseType"; "SubclassWithMeta"; "object"].
Definition ObjectType_class : pyclass := mkclass "ObjectType" graphene_bases.
Definition Connection : pyclass := derive "Connection" ObjectType_class.
Definition Node : pyclass := mkclass "Node" ("AbstractNode" :: "Interface" :: graphene_bases).

(** [klass.create_type(name, node=cls)]: graphene's [SubclassWithMeta]
    builds [type(name, (klass,), ...)].  (A class that is no graphene type
    has no such method; it is no [Connection] either, and the check that
    follows the call in [types.py] rejects the result.) *)
Definition create_type (klass : pyobj) (name : string) : result pyobj :=
  match klass with
  | PyClass c => Ok (PyClass (derive name c))
  | _ => Raise (AttributeError "create_type")
  end.

End Graphene.
Import Graphene.

(** ** types.py *)

Module Types.

(** The parts of the package that [types.py] imports from [utils.py],
    [converter.py] and [registry.py]: the model layer's field table and
    model test, the field converter (a falsy result is [None]) and the
    registry's [register]. *)
Class ModelLayer := {
  ModelField : Type;
  get_model_fields : pyobj → odict ModelField;
  is_valid_mongoengine_model : pyobj → bool;
  convert_mongoengine_field : ModelField → Registry → option gfield;
  register : Registry → pyobj → pyclass → Registry;
}.

(** One turn of the loop of [construct_fields].  Next to the fields built
    so far, the accumulator records the items handed to the converter. *)
Definition construct_step {ML : ModelLayer} (registry : Registry)
    (only_fields exclude_fields : list string)
    (acc : odict gfield * odict ModelField) (item : string * ModelField)
  : odict gfield * odict ModelField :=
  let '(fields, calls) := acc in
  let '(name, field) := item in
  let is_not_in_only := nonempty only_fields && negb (contains only_fields name) in
  let is_excluded := contains exclude_fields name in
  if is_not_in_only || is_excluded then acc
  else
    match convert_mongoengine_field field registry with
    | None => (fields, calls ++ [item])
    | Some converted => (od_set name converted fields, calls ++ [item])
    end.

Definition construct_fields_traced {ML : ModelLayer} (model : pyobj) (registry : Registry)
    (only_fields exclude_fields : list string) : odict gfield * odict ModelField :=
  fold_left (construct_step registry only_fields exclude_fields)
            (get_model_fields model) ([], []).

Definition construct_fields {ML : ModelLayer} (model : pyobj) (registry : Registry)
    (only_fields exclude_fields : list string) : odict gfield :=
  (construct_fields_traced model registry only_fields exclude_fields).1.

(** The fields on which [construct_fields] calls the converter, in order. *)
Definition converter_calls {ML : ModelLayer} (model : pyobj) (registry : Registry)
    (only_fields exclude_fields : list string) : odict ModelField :=
  (construct_fields_traced model registry only_fields exclude_fields).2.

(** What one model field contributes to the field set: its converted
    field, when the rules keep its name and the converter knows its kind. *)
Definition contribution {ML : ModelLayer} (registry : Registry)
    (only_fields exclude_fields : list string) (kv : string * ModelField)
  : option (string * gfield) :=
  if decide ((only_fields = [] ∨ kv.1 ∈ only_fields) ∧ kv.1 ∉ exclude_fields)
  then pair kv.1 <$> convert_mongoengine_field kv.2 registry
  else None.

(** [MongoengineObjectTypeOptions].  [registry] holds the table of the
    registry the type is bound to, [registry_is_global] whether that is the
    process-wide one. *)
Record MongoengineObjectTypeOptions := {
  model : pyobj;
  registry : Registry;
  registry_is_global : bool;
  fields : odict gfield;
  filter_fields : option (list string);
  connection : pyobj;
}.

(** A class built from [MongoengineObjectType]. *)
Record MongoengineObjectType := { cls : pyclass; _meta : MongoengineObjectTypeOptions }.

(** Lines 49-50: a falsy [registry] gives way to the global registry. *)
Definition registry_in_effect (registry : pyobj) (global_registry : Registry) : pyobj :=
  if truthy registry then registry else PyRegistry global_registry.

(** Lines 61-62: without an explicit [use_connection], a [Node] interface
    asks for a connection. *)
Definition connection_required (use_connection : option bool) (interfaces : list pyclass)
  : bool :=
  match use_connection with
  | None =>
      if nonempty interfaces
      then existsb (λ interface, subclass interface Node) interfaces
      else false
  | Some b => b
  end.

(** Lines 64-70: the connection is created when one is required and none
    is given. *)
Definition connection_in_effect (cls : pyclass) (connection connection_class : pyobj)
    (use_connection : bool) : result pyobj :=
  if use_connection && negb (truthy connection) then
    let connection_class :=
      if truthy connection_class then connection_class else PyClass Connection in
    create_type connection_class (cls_name cls +:+ "Connection")
  else Ok connection.

(** Lines 72-75 *)
Definition check_connection (connection : pyobj) : result unit :=
  if bool_decide (connection = None_) then Ok tt
  else b ← issubclass connection Connection;
       assert b "The connection must be a Connection".

(** [MongoengineObjectType.__init_subclass_with_meta__].  The result is
    the [_meta] the method builds and the table of the process-wide
    registry after the registration; graphene's own hook, which the method
    calls with that [_meta] before it registers the class, belongs to the
    library and is left out.  [global_registry] is what
    [get_global_registry()] returns. *)
Definition __init_subclass_with_meta__ {ML : ModelLayer} (cls : pyclass)
    (model registry : pyobj) (skip_registry : bool)
    (only_fields exclude_fields : list string) (filter_fields : option (list string))
    (connection connection_class : pyobj) (use_connection : option bool)
    (interfaces : list pyclass) (global_registry : Registry)
  : result (MongoengineObjectTypeOptions * Registry) :=
  _ ← assert (is_valid_mongoengine_model model)
        "You need to pass a valid Mongoengine Model";
  let is_global := negb (truthy registry) in
  let registry := registry_in_effect registry global_registry in
  _ ← assert (isinstance registry Registry_class)
        "The attribute registry needs to be an instance of Registry";
  let registry := table_of registry in
  let mongoengine_fields :=
    yank_fields_from_attrs (construct_fields model registry only_fields exclude_fields) in
  let use_connection := connection_required use_connection interfaces in
  connection ← connection_in_effect cls connection connection_class use_connection;
  _ ← check_connection connection;
  let registered := if skip_registry then registry else register registry model cls in
  let _meta := {|
    model := model;
    registry := registered;
    registry_is_global := is_global;
    fields := mongoengine_fields;
    filter_fields := filter_fields;
    connection := connection |} in
  Ok (_meta, if is_global then registered else global_registry).

(** [MongoengineObjectType.is_type_of(cls, root, info)] *)
Definition is_type_of {ML : ModelLayer} (t : MongoengineObjectType) (root : pyobj) : result bool :=
  if isinstance root (cls t) then Ok true
  else if negb (is_valid_mongoengine_model (PyClass (type_of root))) then
    Raise (Exception "Received incompatible instance")
  else
    match model (_meta t) with
    | PyClass m => Ok (isinstance root m)
    | _ => Raise (TypeError "isinstance() arg 2 must be a type")
    end.

(** [MongoengineObjectType.resolve_id(self, info)]: [str(self.id)] *)
Definition resolve_id (self : pyobj) : result string :=
  id ← getattr self "id"; Ok (str id).

End Types.

(** ** graphql_relay's array connections

    The library function [connection_from_list_slice] that
    [connection_resolver] calls; cursors are opaque strings produced and
    read by the library's codec. *)

Module Relay.

Abbreviation kwargs := (gmap string value).

(** [offset_to_cursor] and [cursor_to_offset] ([None] for a string that
    is not a cursor). *)
Class CursorCodec := {
  offset_to_cursor : Z → string;
  cursor_to_offset : string → option Z;
}.

Record Edge := mkedge { node : instance; cursor : string }.

Record PageInfo := {
  start_cursor : option string;
  end_cursor : option string;
  has_previous_page : bool;
  has_next_page : bool;
}.

(** An instance of the connection type. *)
Record ConnectionInstance := {
  connection_type : pyobj;
  edges : list Edge;
  page_info : PageInfo;
}.

(** [bool(v)] for an optional argument. *)
Definition given (v : option value) : bool :=
  match v with Some v => truthy (PyVal v) | None => false end.

Definition get_offset_with_default {Codec : CursorCodec} (cursor : option value) (default_offset : Z) : Z :=
  match cursor with
  | Some (VStr s) => default default_offset (cursor_to_offset s)
  | _ => default_offset
  end.

(** A slice bound as Python reads it on a sequence of length [n]. *)
Definition slice_index (n i : Z) : Z :=
  if i <? 0 then Z.max 0 (i + n) else Z.min i n.

(** [l[start:stop]] *)
Definition py_slice {A} (l : list A) (start stop : Z) : list A :=
  let n := Z.of_nat (length l) in
  let a := slice_index n start in
  let b := slice_index n stop in
  take (Z.to_nat (b - a)) (drop (Z.to_nat a) l).

Definition connection_from_list_slice {Codec : CursorCodec} (list_slice : list instance)
    (args : kwargs) (slice_start list_length list_slice_length : Z)
    (connection_type : pyobj) : ConnectionInstance :=
  let before := args !! "before" in
  let after := args !! "after" in
  let first := args !! "first" in
  let last := args !! "last" in
  let slice_end := slice_start + list_slice_length in
  let before_offset := get_offset_with_default before list_length in
  let after_offset := get_offset_with_default after (-1) in
  let start_offset := Z.max (Z.max (slice_start - 1) after_offset) (-1) + 1 in
  let end_offset := Z.min (Z.min slice_end before_offset) list_length in
  let end_offset :=
    match first with
    | Some (VInt first) => Z.min end_offset (start_offset + first)
    | _ => end_offset
    end in
  let start_offset :=
    match last with
    | Some (VInt last) => Z.max start_offset (end_offset - last)
    | _ => start_offset
    end in
  let _slice :=
    py_slice list_slice (Z.max (start_offset - slice_start) 0)
             (list_slice_length - (slice_end - end_offset)) in
  let edges :=
    imap (λ i node, mkedge node (offset_to_cursor (start_offset + Z.of_nat i))) _slice in
  let first_edge_cursor := cursor <$> head edges in
  let last_edge_cursor := cursor <$> head (reverse edges) in
  let lower_bound := if given after then after_offset + 1 else 0 in
  let upper_bound := if given before then before_offset else list_length in
  {| connection_type := connection_type;
     edges := edges;
     page_info := {|
       start_cursor := first_edge_cursor;
       end_cursor := last_edge_cursor;
       has_previous_page := is_int last && (lower_bound <? start_offset);
       has_next_page := is_int first && (end_offset <? upper_bound) |} |}.

End Relay.
Import Relay.

(** ** fields.py *)

Module Fields.

(** The document store behind [model.objects()]: a query set, its
    [filter] by keyword arguments, and the documents a query set
    evaluates to. *)
Class Store := {
  QuerySet : Type;
  objects : pyobj → QuerySet;
  qs_filter : QuerySet → kwargs → QuerySet;
  documents : QuerySet → list instance;
}.

(** What a resolver hands back: nothing, a list of documents, or a query
    set. *)
Inductive iterable {St : Store} :=
| INone
| IList (l : list instance)
| IQuery (q : QuerySet).

(** The documents of an iterable, in order. *)
Definition docs {St : Store} (it : iterable) : list instance :=
  match it with
  | INone => []
  | IList l => l
  | IQuery q => documents q
  end.

(** [bool(iterable)]: [None], an empty list and a query set without
    result are false. *)
Definition has_data {St : Store} (it : iterable) : bool := nonempty (docs it).

(** [len(iterable)] *)
Definition len {St : Store} (it : iterable) : result Z :=
  match it with
  | INone => Raise (TypeError "object of type 'NoneType' has no len()")
  | _ => Ok (Z.of_nat (length (docs it)))
  end.

Record ResolveInfo := { field_name : string }.

(** Calls that leave the resolver, in the order they are made. *)
Inductive event :=
| CallResolver (root : pyobj) (args : kwargs)
| CallObjects (model : pyobj)
| CallFilter (args : kwargs).

(** The connection as [connection_resolver] returns it: graphql_relay's
    connection with the two attributes set on it. *)
Record Envelope {St : Store} := {
  connection : ConnectionInstance;
  iterable_ : iterable;
  length_ : Z;
}.

(** A [MongoengineConnectionField]: the object type it was declared with
    and the arguments stored by the [args] setter. *)
Record MongoengineConnectionField := {
  _type : Types.MongoengineObjectType;
  _base_args : option (odict argvalue);
}.

Definition fields (self : MongoengineConnectionField) : odict gfield :=
  Types.fields (Types._meta (_type self)).

Definition filter_fields (self : MongoengineConnectionField) : option (list string) :=
  Types.filter_fields (Types._meta (_type self)).

(** [hasattr(field, '_type')] *)
Definition carries_type (f : gfield) : Prop := is_Some (Graphene._type f).

(** [field._type._of_type()] evaluates: the attribute is there and calling
    it succeeds. *)
Definition derivable (f : gfield) : Prop :=
  ∀ t, Graphene._type f = Some t → ∃ a, _of_type t = Some (Ok a).

(** The function folded by [default_filter_args]. *)
Definition filter_arg_step (r : odict argvalue) (kv : string * gfield) : result (odict argvalue) :=
  match Graphene._type kv.2 with
  | Some t =>
      match _of_type t with
      | Some call => a ← call; Ok (od_set kv.1 a r)
      | None => Raise (AttributeError "_of_type")
      end
  | None => Ok r
  end.

Definition default_filter_args (self : MongoengineConnectionField) : result (odict argvalue) :=
  foldl (λ r kv, r ← r; filter_arg_step r kv) (Ok []) (fields self).

(** [self._base_args or OrderedDict()] *)
Definition base_args (self : MongoengineConnectionField) : odict argvalue :=
  match _base_args self with
  | Some a => if nonempty a then a else []
  | None => []
  end.

(** The [args] property. *)
Definition args (self : MongoengineConnectionField) : result (odict argvalue) :=
  extra ← default_filter_args self;
  to_arguments (base_args self) extra.


(** [get_query(model, info, **args)], with the store calls it makes. *)
Definition get_query {St : Store} (model : pyobj) (info : ResolveInfo) (args : kwargs)
  : QuerySet * list event :=
  if bool_decide (args ≠ ∅)
  then (qs_filter (objects model) args, [CallObjects model; CallFilter args])
  else (objects model, [CallObjects model]).

(** [merge_querysets(default_queryset, queryset)]; [&] is the operand
    type's intersection. *)
Definition merge_querysets `{Intersection C} (default_queryset queryset : C) : C :=
  queryset ∩ default_queryset.

Definition connection_resolver {St : Store} {Codec : CursorCodec}
    (resolver : pyobj → ResolveInfo → kwargs → iterable)
    (connection model root : pyobj) (info : ResolveInfo) (args : kwargs)
  : result Envelope * list event :=
  let iterable := resolver root info args in
  let '(iterable, queried) :=
    if negb (has_data iterable)
    then let '(q, calls) := get_query model info args in (IQuery q, calls)
    else (iterable, []) in
  (_len ← len iterable;
   let connection :=
     connection_from_list_slice (docs iterable) args 0 _len _len connection in
   Ok {| connection := connection; iterable_ := iterable; length_ := _len |},
   CallResolver root args :: queried).

End Fields.

(** ** The test models, in memory

    [tests/test_query.py] runs against two editors and two articles.  The
    instances below give the collaborators a concrete shape on which the
    definitions above compute: a model layer with the fields of the test
    models, a store holding the fixture documents, and cursors left
    unencoded. *)

Module Fixtures.

Inductive field_kind :=
| ObjectIdField
| StringField
| ReferenceField (target : string)
| GeoPointField.

Record model_field := { kind : field_kind; counter : nat }.

#[export] Instance field_kind_eq_dec : EqDecision field_kind.
Proof. solve_decision. Defined.

#[export] Instance model_field_eq_dec : EqDecision model_field.
Proof. solve_decision. Defined.

Definition Document : pyclass := mkclass "Document" ["BaseDocument"; "object"].
Definition Editor : pyclass := derive "Editor" Document.
Definition Article : pyclass := derive "Article" Document.
Definition Place : pyclass := derive "Place" Document.
Definition Podium : pyclass := derive "Podium" Document.

Definition fields_of (model : pyobj) : odict model_field :=
  match model with
  | PyClass c =>
      if decide (c = Editor) then
        [("id", {| kind := ObjectIdField; counter := 0 |});
         ("first_name", {| kind := StringField; counter := 1 |});
         ("last_name", {| kind := StringField; counter := 2 |})]
      else if decide (c = Article) then
        [("id", {| kind := ObjectIdField; counter := 3 |});
         ("headline", {| kind := StringField; counter := 4 |});
         ("editor", {| kind := ReferenceField "Editor"; counter := 5 |})]
      else if decide (c = Place) then
        [("id", {| kind := ObjectIdField; counter := 6 |});
         ("name", {| kind := StringField; counter := 7 |});
         ("location", {| kind := GeoPointField; counter := 8 |})]
      else if decide (c = Podium) then
        [("id", {| kind := ObjectIdField; counter := 9 |});
         ("first", {| kind := StringField; counter := 10 |})]
      else []
  | _ => []
  end.

(** A required scalar mounts as [NonNull(scalar)], whose [_of_type] is the
    scalar class. *)
Definition non_null (scalar : string) (c : nat) : type_obj :=
  mktype ("NonNull(" +:+ scalar +:+ ")") (Some (Ok (Unmounted scalar (100 + c)))).

(** A converter in the shape the specification gives it: a scalar for a
    scalar kind, a lazily resolved field for a reference, nothing for a
    kind it does not know. *)
Definition convert (f : model_field) (registry : Registry) : option gfield :=
  match kind f with
  | ObjectIdField => Some (mkfield (counter f) (Some (non_null "ID" (counter f))))
  | StringField => Some (mkfield (counter f) (Some (non_null "String" (counter f))))
  | ReferenceField _ => Some (mkfield (counter f) None)
  | GeoPointField => None
  end.

#[export] Instance model_layer : Types.ModelLayer := {|
  Types.ModelField := model_field;
  Types.get_model_fields := fields_of;
  Types.is_valid_mongoengine_model o :=
    match o with PyClass c => subclass c Document | _ => false end;
  Types.convert_mongoengine_field := convert;
  Types.register r model cls :=
    match model with PyClass m => <[cls_name m := cls_name cls]> r | _ => r end;
|}.

(** The object type that [class Meta: model = ...] declares, with no
    connection, in a registry of its own. *)
Definition declared (cls model : pyclass) (filter_fields : option (list string))
  : Types.MongoengineObjectType :=
  {| Types.cls := cls;
     Types._meta := {|
       Types.model := PyClass model;
       Types.registry := {[cls_name model := cls_name cls]};
       Types.registry_is_global := false;
       Types.fields :=
         yank_fields_from_attrs (Types.construct_fields (PyClass model) ∅ [] []);
       Types.filter_fields := filter_fields;
       Types.connection := None_ |} |}.

Definition document (c : pyclass) (attrs : list (string * value)) : instance :=
  mkinstance c (list_to_map attrs).

Definition penny : instance :=
  document Editor [("id", VInt 1); ("first_name", VStr "Penny"); ("last_name", VStr "Hardaway")].
Definition grant : instance :=
  document Editor [("id", VInt 2); ("first_name", VStr "Grant"); ("last_name", VStr "Hill")].
Definition hello : instance :=
  document Article [("id", VStr "a1"); ("headline", VStr "Hello")].
Definition world : instance :=
  document Article [("id", VStr "a2"); ("headline", VStr "World")].

Definition collection (model : pyobj) : list instance :=
  match model with
  | PyClass c =>
      if decide (c = Editor) then [penny; grant]
      else if decide (c = Article) then [hello; world]
      else []
  | _ => []
  end.

(** A document matches keyword arguments when it carries each of them. *)
Definition matches (args : kwargs) (doc : instance) : bool :=
  bool_decide (map_Forall (λ k v, inst_attrs doc !! k = Some v) args).

#[export] Instance store : Fields.Store := {|
  Fields.QuerySet := list instance;
  Fields.objects := collection;
  Fields.qs_filter q args := List.filter (matches args) q;
  Fields.documents q := q;
|}.

Definition prefix_ : string := "arrayconnection:".

#[export] Instance codec : CursorCodec := {|
  offset_to_cursor z := prefix_ +:+ pretty z;
  cursor_to_offset s :=
    if String.prefix prefix_ s
    then Z.of_int <$> NilEmpty.int_of_string
           (String.substring (String.length prefix_) (String.length s) s)
    else None;
|}.

(** The upstream resolver at the query root: nothing is resolved yet. *)
Definition root_resolver : pyobj → Fields.ResolveInfo → kwargs → Fields.iterable :=
  λ _ _ _, Fields.INone.

Definition info : Fields.ResolveInfo := {| Fields.field_name := "allEditors" |}.

Definition EditorNode : pyclass := derive "EditorNode" (derive "MongoengineObjectType" ObjectType_class).
Definition ArticleNode : pyclass := derive "ArticleNode" (derive "MongoengineObjectType" ObjectType_class).
Definition PlaceNode : pyclass := derive "PlaceNode" (derive "MongoengineObjectType" ObjectType_class).
Definition PodiumNode : pyclass := derive "PodiumNode" (derive "MongoengineObjectType" ObjectType_class).

(** The arguments every relay connection field declares. *)
Definition relay_args : odict argvalue :=
  [("before", Argument "String" 20); ("after", Argument "String" 21);
   ("first", Argument "Int" 22); ("last", Argument "Int" 23)].

(** [MongoengineConnectionField(ArticleNode)], as in the filter test. *)
Definition articles : Fields.MongoengineConnectionField :=
  {| Fields._type := declared ArticleNode Article (Some ["headline"]);
     Fields._base_args := Some relay_args |}.

(** A connection over a model that has a field called [first]. *)
Definition podiums : Fields.MongoengineConnectionField :=
  {| Fields._type := declared PodiumNode Podium None;
     Fields._base_args := Some relay_args |}.

End Fixtures.


(** ** fields.py: the type and the arguments of a connection field *)

Module ConnectionField.

Definition MongoengineObjectType_class : pyclass :=
  derive "MongoengineObjectType" ObjectType_class.

(** The [type] property of [MongoengineConnectionField]: the connection
    of the object type the field was declared with.  [_type] is what
    graphene's [Field.type] returns for a type given as a class. *)
Definition type (self : Fields.MongoengineConnectionField) : result pyobj :=
  let _type := Fields._type self in
  _ ← assert (subclass (Types.cls _type) MongoengineObjectType_class)
        "MongoengineConnectionField only accepts MongoengineObjectType types";
  _ ← assert (truthy (Types.connection (Types._meta _type)))
        "The type doesn't have a connection";
  Ok (Types.connection (Types._meta _type)).

(** A field that carries a [_type] whose [_of_type] is missing or cannot
    be called. *)
Definition underivable (f : gfield) : Prop :=
  ∃ t, Graphene._type f = Some t ∧ ∀ a, _of_type t ≠ Some (Ok a).

(** The entry [default_filter_args] adds for one field: the name and the
    instance [_of_type()] returns, for a field that carries a [_type]. *)
Definition filter_entry (kv : string * gfield) : option (string * argvalue) :=
  match Graphene._type kv.2 with
  | Some t =>
      match _of_type t with
      | Some (Ok a) => Some (kv.1, a)
      | _ => None
      end
  | None => None
  end.

(** A value [to_arguments] takes for an argument, and the argument it
    mounts it as. *)
Definition accepted (a : argvalue) : Prop :=
  match a with NotAnArgument _ => False | _ => True end.

Definition mounted (a : argvalue) : argvalue :=
  match a with
  | Unmounted t c => Argument t c
  | _ => a
  end.

End ConnectionField.

(** * Properties *)

Import Types Fields.

(** ** Ordered dictionaries and sorting *)

Section dictionaries.
Context {V : Type}.
Implicit Types (d : odict V) (k n : string) (v : V).

Lemma keys_app d1 d2 : keys (d1 ++ d2) = keys d1 ++ keys d2.
Proof. unfold keys. apply fmap_app. Qed.

Lemma elem_of_keys_od_set n k v d : n ∈ keys (od_set k v d) ↔ n = k ∨ n ∈ keys d.
Proof.
  induction d as [|[k' v'] d IH]; simpl.
  - rewrite list_elem_of_singleton. split; [by left|].
    intros [?|Hn]; [done | by apply not_elem_of_nil in Hn].
  - case_decide as Hk; simpl.
    + subst k'. rewrite !elem_of_cons. tauto.
    + rewrite !elem_of_cons, IH. tauto.
Qed.

Lemma od_set_fresh k v d : k ∉ keys d → od_set k v d = d ++ [(k, v)].
Proof.
  induction d as [|[k' v'] d IH]; simpl; [done|].
  rewrite not_elem_of_cons. intros [Hne Hd].
  case_decide; [done|]. by rewrite IH.
Qed.

Lemma od_get_set k v d : od_get k (od_set k v d) = Some v.
Proof.
  induction d as [|[k' v'] d IH]; simpl.
  - by case_decide.
  - case_decide as Hk; simpl; case_decide; try done.
Qed.

Lemma od_get_set_ne n k v d : n ≠ k → od_get n (od_set k v d) = od_get n d.
Proof.
  intros Hne. induction d as [|[k' v'] d IH]; simpl.
  - by case_decide.
  - case_decide as Hk; simpl; [subst k'|]; repeat case_decide; try done; congruence.
Qed.

Lemma od_get_None n d : od_get n d = None ↔ n ∉ keys d.
Proof.
  induction d as [|[k' v'] d IH]; simpl.
  - split; [intros _; apply not_elem_of_nil | done].
  - case_decide as Hk.
    + subst k'. split; [done|]. intros Hn. exfalso. apply Hn. left.
    + rewrite IH, not_elem_of_cons. tauto.
Qed.

Lemma nodup_keys_od_set k v d : NoDup (keys d) → NoDup (keys (od_set k v d)).
Proof.
  induction d as [|[k' v'] d IH]; simpl; intros Hd.
  - apply NoDup_singleton.
  - apply NoDup_cons in Hd as [Hk' Hd].
    case_decide as Hk; simpl.
    + subst k'. by apply NoDup_cons.
    + apply NoDup_cons. split; [|by apply IH].
      rewrite elem_of_keys_od_set. intros [?|?]; [congruence | done].
Qed.

End dictionaries.

Section sorting.
Context {A : Type} (key : A → nat).

Lemma insert_by_perm x (l : list A) : insert_by key x l ≡ₚ x :: l.
Proof.
  induction l as [|y l IH]; simpl; [done|].
  case_decide; [done|]. rewrite IH. apply Permutation_swap.
Qed.

Lemma sorted_by_perm (l : list A) : sorted_by key l ≡ₚ l.
Proof.
  induction l as [|x l IH]; simpl; [done|].
  rewrite insert_by_perm. by rewrite IH.
Qed.

Lemma sorted_by_length (l : list A) : length (sorted_by key l) = length l.
Proof. apply Permutation_length, sorted_by_perm. Qed.

End sorting.

Lemma yank_keys_perm (attrs : odict gfield) : keys (yank_fields_from_attrs attrs) ≡ₚ keys attrs.
Proof. unfold keys, yank_fields_from_attrs. by rewrite sorted_by_perm. Qed.

Lemma yank_perm (attrs : odict gfield) : yank_fields_from_attrs attrs ≡ₚ attrs.
Proof. apply sorted_by_perm. Qed.

(** ** construct_fields *)

Section construct_fields.
Context `{ModelLayer}.
Implicit Types (only exclude : list string) (registry : Registry).
Implicit Types (items : odict ModelField) (acc : odict gfield * odict ModelField).

Lemma nonempty_false {A} (l : list A) : nonempty l = false ↔ l = [].
Proof. by destruct l. Qed.

Lemma contains_true (l : list string) n : contains l n = true ↔ n ∈ l.
Proof. unfold contains. by rewrite bool_decide_eq_true. Qed.

Lemma contains_false (l : list string) n : contains l n = false ↔ n ∉ l.
Proof. unfold contains. by rewrite bool_decide_eq_false. Qed.

(** The loop skips a name exactly when the rules say so. *)
Lemma kept_iff only exclude name :
  nonempty only && negb (contains only name) || contains exclude name = false
  ↔ (only = [] ∨ name ∈ only) ∧ name ∉ exclude.
Proof.
  rewrite orb_false_iff, andb_false_iff, negb_false_iff.
  by rewrite nonempty_false, contains_true, contains_false.
Qed.

Lemma construct_step_calls registry only exclude acc item :
  (construct_step registry only exclude acc item).2
  = acc.2 ++ filter (λ kv, (only = [] ∨ kv.1 ∈ only) ∧ kv.1 ∉ exclude) [item].
Proof.
  destruct acc as [fields calls], item as [name field]. unfold construct_step.
  destruct (_ || _) eqn:Hskip; simpl.
  - rewrite filter_cons_False, filter_nil, app_nil_r; [done|].
    simpl. rewrite <- kept_iff. congruence.
  - apply kept_iff in Hskip.
    rewrite filter_cons_True by done. rewrite filter_nil.
    by destruct (convert_mongoengine_field field registry).
Qed.

Lemma construct_step_keys registry only exclude acc item n :
  n ∈ keys (construct_step registry only exclude acc item).1 →
  n ∈ keys (fst acc) ∨ ((only = [] ∨ n ∈ only) ∧ (n ∉ exclude) ∧ n = item.1).
Proof.
  destruct acc as [fields calls], item as [name field]. unfold construct_step.
  destruct (_ || _) eqn:Hskip; simpl; [by left|].
  apply kept_iff in Hskip.
  destruct (convert_mongoengine_field field registry); simpl; [|by left].
  rewrite elem_of_keys_od_set. intros [->|?]; [right|left]; tauto.
Qed.

Lemma construct_fold registry only exclude items acc :
  let r := fold_left (construct_step registry only exclude) items acc in
  r.2 = acc.2 ++ filter (λ kv, (only = [] ∨ kv.1 ∈ only) ∧ kv.1 ∉ exclude) items
  ∧ ∀ n, n ∈ keys r.1 →
      n ∈ keys (fst acc) ∨ ((only = [] ∨ n ∈ only) ∧ (n ∉ exclude) ∧ n ∈ keys items).
Proof.
  revert acc. induction items as [|item items IH]; intros acc; simpl.
  - split; [by rewrite filter_nil, app_nil_r | by left].
  - destruct (IH (construct_step registry only exclude acc item)) as [Hcalls Hkeys].
    split.
    + rewrite Hcalls, construct_step_calls, <- app_assoc.
      f_equal. symmetry. apply (filter_app _ [item] items).
    + intros n Hn. destruct (Hkeys n Hn) as [Hacc|(? & ? & Hin)].
      * apply construct_step_keys in Hacc as [?|(? & ? & ->)]; [by left|].
        right. repeat split; try done. apply list_elem_of_here.
      * right. repeat split; try done. by apply list_elem_of_further.
Qed.

End construct_fields.

(** C3.  While an object type is built, a model field is left out when
    [only_fields] is non-empty and does not name it, and when
    [exclude_fields] names it, also if [only_fields] names it too; the
    fields handed to the converter are exactly the remaining ones, in the
    model's order. *)
Theorem construct_fields_filters_names {ML : ModelLayer} (model : pyobj) (registry : Registry)
    (only_fields exclude_fields : list string) (name : string) :
  (only_fields ≠ [] → name ∉ only_fields →
     name ∉ keys (construct_fields model registry only_fields exclude_fields))
  ∧ (name ∈ exclude_fields →
     name ∉ keys (construct_fields model registry only_fields exclude_fields))
  ∧ converter_calls model registry only_fields exclude_fields
    = filter (λ kv, (only_fields = [] ∨ kv.1 ∈ only_fields) ∧ kv.1 ∉ exclude_fields)
             (get_model_fields model).
Proof.
  unfold construct_fields, converter_calls, construct_fields_traced.
  destruct (construct_fold registry only_fields exclude_fields
              (get_model_fields model) ([], [])) as [Hcalls Hkeys].
  simpl in Hcalls, Hkeys. repeat split.
  - intros Hne Hnot Hin. apply Hkeys in Hin as [Hnil|([?|?] & _)]; try done.
    by apply not_elem_of_nil in Hnil.
  - intros Hex Hin. apply Hkeys in Hin as [Hnil|(_ & ? & _)]; try done.
    by apply not_elem_of_nil in Hnil.
  - done.
Qed.

(** ** The built field set *)

Section built_fields.
Context `{ModelLayer}.
Implicit Types (only exclude : list string) (registry : Registry).
Implicit Types (items : odict ModelField) (acc : odict gfield * odict ModelField).

Lemma construct_step_fresh registry only exclude acc item :
  item.1 ∉ keys acc.1 →
  (construct_step registry only exclude acc item).1
  = acc.1 ++ omap (contribution registry only exclude) [item].
Proof.
  destruct acc as [fields calls], item as [name field]. simpl. intros Hfresh.
  unfold construct_step, contribution. simpl.
  destruct (_ || _) eqn:Hskip.
  - case_decide as HP; [|by rewrite app_nil_r].
    apply kept_iff in HP. congruence.
  - apply kept_iff in Hskip. case_decide; [|done].
    destruct (convert_mongoengine_field field registry); simpl.
    + by apply od_set_fresh.
    + by rewrite app_nil_r.
Qed.

Lemma keys_contribution_single registry only exclude (item : string * ModelField) :
  keys (omap (contribution registry only exclude) [item]) = []
  ∨ keys (omap (contribution registry only exclude) [item]) = [item.1].
Proof.
  simpl. unfold contribution. case_decide; [|by left].
  destruct (convert_mongoengine_field item.2 registry); [by right | by left].
Qed.

(** With distinct names, as the keys of a dictionary are, the loop appends
    the contributions in order. *)
Lemma construct_fold_nodup registry only exclude items acc :
  NoDup (keys acc.1 ++ keys items) →
  (fold_left (construct_step registry only exclude) items acc).1
  = acc.1 ++ omap (contribution registry only exclude) items.
Proof.
  revert acc. induction items as [|item items IH]; intros acc Hnd; simpl.
  - by rewrite app_nil_r.
  - change (keys (item :: items)) with (item.1 :: keys items) in Hnd.
    assert (item.1 ∉ keys acc.1) as Hfresh.
    { apply NoDup_app in Hnd as (_ & Hdisj & _). intros Hin.
      apply (Hdisj _ Hin), list_elem_of_here. }
    rewrite IH; rewrite (construct_step_fresh _ _ _ _ _ Hfresh).
    + rewrite <- app_assoc. f_equal. simpl.
      by destruct (contribution registry only exclude item).
    + rewrite keys_app.
      destruct (keys_contribution_single registry only exclude item) as [->| ->].
      * rewrite app_nil_r. apply NoDup_app in Hnd as (Hacc & Hdisj & Hitems).
        apply NoDup_cons in Hitems as [_ Hitems].
        apply NoDup_app. split_and!; [done| |done].
        intros x Hx Hin. apply (Hdisj x Hx). by apply list_elem_of_further.
      * by rewrite <- app_assoc.
Qed.

Lemma omap_filter_length {A B} (f : A → option B) (l : list A) :
  (length (omap f l) + length (filter (λ x, f x = None) l) = length l)%nat.
Proof.
  induction l as [|x l IH]; csimpl; [done|].
  destruct (f x) eqn:Hfx; csimpl.
  - rewrite filter_cons_False by congruence. lia.
  - rewrite filter_cons_True by done. csimpl. lia.
Qed.

End built_fields.

(** ** The derived filter arguments *)

Section filter_arguments.
Implicit Types (fs : odict gfield) (table : odict argvalue).

Lemma filter_fold_raise e fs :
  foldl (λ r kv, r ← r; filter_arg_step r kv) (Raise e) fs = Raise e.
Proof. induction fs as [|kv fs IH]; simpl; [done|]. apply IH. Qed.

Lemma filter_step_ok (r : odict argvalue) kv r' :
  filter_arg_step r kv = Ok r' →
  derivable kv.2 ∧
  ∀ n, n ∈ keys r' ↔ n ∈ keys r ∨ (n = kv.1 ∧ carries_type kv.2).
Proof.
  unfold filter_arg_step, derivable, carries_type.
  destruct (Graphene._type kv.2) as [t|].
  - destruct (_of_type t) as [[a|e]|] eqn:Hof; simpl; try done.
    intros [= <-]. split.
    + intros ? [= <-]. by exists a.
    + intros n. rewrite elem_of_keys_od_set. split.
      * intros [->|?]; [right|left]; eauto.
      * intros [?|[-> _]]; [by right | by left].
  - intros [= <-]. split; [done|]. intros n. split; [by left|].
    intros [?|[_ [? ?]]]; done.
Qed.

Lemma filter_step_raise (r : odict argvalue) kv e :
  filter_arg_step r kv = Raise e → ¬ derivable kv.2.
Proof.
  unfold filter_arg_step, derivable.
  destruct (Graphene._type kv.2) as [t|]; [|done].
  destruct (_of_type t) as [[a|e']|] eqn:Hof; simpl; try done.
  - intros _ Hd. destruct (Hd t eq_refl) as [a Ha]. congruence.
  - intros _ Hd. destruct (Hd t eq_refl) as [a Ha]. congruence.
Qed.

Lemma filter_fold_keys fs (r : odict argvalue) table :
  foldl (λ r kv, r ← r; filter_arg_step r kv) (Ok r) fs = Ok table →
  Forall (λ kv, derivable kv.2) fs ∧
  ∀ n, n ∈ keys table ↔ n ∈ keys r ∨ ∃ f, (n, f) ∈ fs ∧ carries_type f.
Proof.
  revert r. induction fs as [|kv fs IH]; intros r; simpl.
  - intros [= <-]. split; [done|]. intros n. split; [by left|].
    intros [?|(f & Hin & _)]; [done|]. by apply not_elem_of_nil in Hin.
  - destruct (filter_arg_step r kv) as [r'|e] eqn:Hstep.
    + intros Hfold. apply filter_step_ok in Hstep as [Hd Hstep].
      apply IH in Hfold as [Hall Hkeys]. split; [by constructor|].
      intros n. rewrite Hkeys, Hstep. split.
      * intros [[?|[-> ?]]|(f & Hin & ?)]; [by left| |].
        -- right. exists kv.2. split; [|done]. destruct kv. apply list_elem_of_here.
        -- right. exists f. split; [by apply list_elem_of_further|done].
      * intros [?|(f & Hin & ?)]; [by left; left|].
        apply elem_of_cons in Hin as [<-|Hin]; [left; right; done|].
        right. by exists f.
    + cbn. rewrite filter_fold_raise. done.
Qed.

Lemma filter_fold_total fs (r : odict argvalue) :
  Forall (λ kv, derivable kv.2) fs →
  ∃ table, foldl (λ r kv, r ← r; filter_arg_step r kv) (Ok r) fs = Ok table.
Proof.
  revert r. induction fs as [|kv fs IH]; intros r Hall; simpl; [by eexists|].
  apply Forall_cons in Hall as [Hd Hall].
  destruct (filter_arg_step r kv) as [r'|e] eqn:Hstep.
  - by apply IH.
  - by apply filter_step_raise in Hstep.
Qed.

End filter_arguments.

(** ** Building an object type *)

Section build.
Context `{ModelLayer}.

Lemma string_length_app (s1 s2 : string) :
  String.length (s1 +:+ s2) = (String.length s1 + String.length s2)%nat.
Proof.
  induction s1 as [|c s1 IH]; [done|].
  change (String c s1 +:+ s2) with (String c (s1 +:+ s2)). simpl. by rewrite IH.
Qed.

(** The name given to a created connection is not graphene's own. *)
Lemma created_name_fresh (n : string) : n ≠ "" → "Connection" ≠ n +:+ "Connection".
Proof.
  intros Hn Heq. apply (f_equal String.length) in Heq.
  rewrite string_length_app in Heq. destruct n; [done|]. simpl in Heq. lia.
Qed.

Lemma subclass_created (n : string) (k : pyclass) :
  n ≠ "" → subclass (derive (n +:+ "Connection") k) Connection = subclass k Connection.
Proof.
  intros Hn. unfold subclass, derive. simpl.
  rewrite (bool_decide_eq_false_2 ("Connection" = n +:+ "Connection"))
    by by apply created_name_fresh.
  simpl. apply eq_true_iff_eq.
  rewrite orb_true_iff, !bool_decide_eq_true, elem_of_cons. tauto.
Qed.


(** Whether the connection in effect passes lines 72-75, in terms of the
    arguments. *)
Lemma connection_checked (cls : pyclass) (connection connection_class : pyobj) (required : bool) :
  cls_name cls ≠ "" →
  raises (c ← connection_in_effect cls connection connection_class required;
          check_connection c) = true
  ↔ if required && negb (truthy connection)
    then issubclass (if truthy connection_class then connection_class
                     else PyClass Connection) Connection ≠ Ok true
    else connection ≠ None_ ∧ issubclass connection Connection ≠ Ok true.
Proof.
  intros Hname. unfold connection_in_effect.
  destruct (required && negb (truthy connection)).
  - destruct (if truthy connection_class then connection_class else PyClass Connection)
      as [v|k|o|d|r]; simpl; try (split; [done|by intros _]).
    unfold check_connection. rewrite bool_decide_eq_false_2 by done. simpl.
    rewrite subclass_created by done.
    destruct (subclass k Connection); simpl; split; done.
  - simpl. unfold check_connection. case_bool_decide as Hnone.
    + simpl. split; [done | by intros [? _]].
    + destruct connection as [v|k|o|d|r]; simpl; try (split; [done|by intros _]).
      destruct (subclass k Connection); simpl; split; try done.
      by intros [_ ?].
Qed.

Lemma build_raises (cls : pyclass) (model registry : pyobj) (skip : bool)
    (only exclude : list string) (ff : option (list string))
    (connection connection_class : pyobj) (use_connection : option bool)
    (interfaces : list pyclass) (g : Registry) :
  raises (__init_subclass_with_meta__ cls model registry skip only exclude ff
            connection connection_class use_connection interfaces g) = true
  ↔ is_valid_mongoengine_model model = false
    ∨ isinstance (registry_in_effect registry g) Registry_class = false
    ∨ raises (c ← connection_in_effect cls connection connection_class
                    (connection_required use_connection interfaces);
              check_connection c) = true.
Proof.
  unfold __init_subclass_with_meta__.
  destruct (is_valid_mongoengine_model model); simpl; [|by split; [left|]].
  destruct (isinstance (registry_in_effect registry g) Registry_class); simpl;
    [|by split; [right; left|]].
  destruct (connection_in_effect _ _ _ _) as [c|e]; simpl; [|by split; [right; right|]].
  destruct (check_connection c) as [[]|e]; simpl.
  - split; [done|]. by intros [?|[?|?]].
  - split; [by right; right|done].
Qed.

Lemma build_ok (cls : pyclass) (model registry : pyobj) (skip : bool)
    (only exclude : list string) (ff : option (list string))
    (connection connection_class : pyobj) (use_connection : option bool)
    (interfaces : list pyclass) (g : Registry) meta g' :
  __init_subclass_with_meta__ cls model registry skip only exclude ff
    connection connection_class use_connection interfaces g = Ok (meta, g') →
  Types.fields meta
  = yank_fields_from_attrs
      (construct_fields model (table_of (registry_in_effect registry g)) only exclude)
  ∧ Types.filter_fields meta = ff
  ∧ model = Types.model meta.
Proof.
  unfold __init_subclass_with_meta__.
  destruct (is_valid_mongoengine_model model); simpl; [|done].
  destruct (isinstance (registry_in_effect registry g) Registry_class); simpl; [|done].
  destruct (connection_in_effect _ _ _ _) as [c|e]; simpl; [|done].
  destruct (check_connection c) as [[]|e]; simpl; [|done].
  by intros [= <- _].
Qed.

End build.

(** ** Unsupported fields *)

Section unsupported.
Context `{ModelLayer}.
Implicit Types (items : odict ModelField) (registry : Registry).

Lemma keys_unique {V} (d : odict V) n (v1 v2 : V) :
  NoDup (keys d) → (n, v1) ∈ d → (n, v2) ∈ d → v1 = v2.
Proof.
  induction d as [|[k v] d IH]; simpl; intros Hnd H1 H2.
  - by apply not_elem_of_nil in H1.
  - apply NoDup_cons in Hnd as [Hk Hnd].
    apply elem_of_cons in H1 as [[= -> ->]|H1], H2 as [[= <-]|H2]; try done.
    + exfalso. apply Hk. apply (list_elem_of_fmap_2 fst) in H2. done.
    + exfalso. apply Hk. apply (list_elem_of_fmap_2 fst) in H1. done.
    + by apply IH.
Qed.

Lemma elem_of_keys {V} (d : odict V) n : n ∈ keys d ↔ ∃ v, (n, v) ∈ d.
Proof.
  unfold keys. rewrite list_elem_of_fmap. split.
  - intros [[k v] [-> Hin]]. by exists v.
  - intros [v Hin]. by exists (n, v).
Qed.

(** With the default [only_fields] and [exclude_fields] every field
    contributes what the converter makes of it. *)
Lemma default_contributions registry items n g :
  (n, g) ∈ omap (contribution registry [] []) items
  ↔ ∃ f, (n, f) ∈ items ∧ convert_mongoengine_field f registry = Some g.
Proof.
  rewrite list_elem_of_omap. unfold contribution. split.
  - intros [[k f] [Hin Hc]]. simpl in Hc.
    destruct (convert_mongoengine_field f registry) as [g'|] eqn:Hf; [|done].
    simpl in Hc. injection Hc as -> ->. by exists f.
  - intros [f [Hin Hf]]. exists (n, f). split; [done|]. simpl. by rewrite Hf.
Qed.

Lemma default_contributions_length registry items :
  (length (omap (contribution registry [] []) items)
   + length (filter (λ kv, convert_mongoengine_field kv.2 registry = None) items)
   = length items)%nat.
Proof.
  induction items as [|[n f] items IH]; csimpl; [done|].
  unfold contribution at 1. simpl.
  destruct (convert_mongoengine_field f registry) eqn:Hf; csimpl.
  - rewrite filter_cons_False by (simpl; congruence). lia.
  - rewrite filter_cons_True by done. csimpl. lia.
Qed.

End unsupported.
(** C4.  A model whose dictionary of fields has N entries, K of them of a
    kind the converter returns nothing for, builds without error under a
    valid model and registry; the field set of the built type has exactly
    the N - K supported fields, and no unsupported field has an entry in
    the filter arguments derived from it. *)
Theorem unsupported_fields_are_skipped {ML : ModelLayer} (cls : pyclass)
    (model registry : pyobj) (skip_registry : bool)
    (filter_fields : option (list string)) (use_connection : option bool)
    (interfaces : list pyclass) (global_registry : Registry) :
  let items := get_model_fields model in
  let table := table_of (registry_in_effect registry global_registry) in
  let unsupported :=
    filter (λ kv, convert_mongoengine_field kv.2 table = None) items in
  NoDup (keys items) →
  is_valid_mongoengine_model model = true →
  isinstance (registry_in_effect registry global_registry) Registry_class = true →
  cls_name cls ≠ "" →
  ∃ meta global_registry',
    __init_subclass_with_meta__ cls model registry skip_registry [] [] filter_fields
      None_ None_ use_connection interfaces global_registry
    = Ok (meta, global_registry')
    ∧ length (Types.fields meta) = (length items - length unsupported)%nat
    ∧ (∀ n, n ∈ keys (Types.fields meta)
          ↔ ∃ f, (n, f) ∈ items ∧ convert_mongoengine_field f table ≠ None)
    ∧ ∀ self args n,
        Types._meta (_type self) = meta →
        default_filter_args self = Ok args →
        n ∈ keys unsupported → n ∉ keys args.
Proof.
  intros items table unsupported Hnd Hvalid Hreg Hname.
  destruct (__init_subclass_with_meta__ cls model registry skip_registry [] []
              filter_fields None_ None_ use_connection interfaces global_registry)
    as [[meta g']|e] eqn:Hbuild.
  2:{ exfalso.
      assert (raises (__init_subclass_with_meta__ cls model registry skip_registry [] []
                filter_fields None_ None_ use_connection interfaces global_registry) = true)
        as Hr by by rewrite Hbuild.
      apply build_raises in Hr as [Hr|[Hr|Hr]]; [congruence|congruence|].
      apply connection_checked in Hr; [|done]. simpl in Hr.
      rewrite andb_true_r in Hr.
      destruct (connection_required use_connection interfaces); simpl in Hr.
      - by apply Hr.
      - by destruct Hr. }
  exists meta, g'. split; [done|].
  apply build_ok in Hbuild as (Hfields & _ & _).
  fold table in Hfields.
  assert (construct_fields model table [] [] = omap (contribution table [] []) items) as Hcf.
  { exact (construct_fold_nodup table [] [] items ([], []) Hnd). }
  assert (∀ n, n ∈ keys (Types.fields meta)
            ↔ ∃ f, (n, f) ∈ items ∧ convert_mongoengine_field f table ≠ None) as Hkeys.
  { intros n. rewrite Hfields, yank_keys_perm, Hcf, elem_of_keys. split.
    - intros [g Hin]. apply default_contributions in Hin as (f & Hin & Hf).
      exists f. split; [done|congruence].
    - intros (f & Hin & Hf).
      destruct (convert_mongoengine_field f table) as [g|] eqn:Hg; [|done].
      exists g. apply default_contributions. by exists f. }
  split_and!.
  - rewrite Hfields. unfold yank_fields_from_attrs. rewrite sorted_by_length, Hcf.
    pose proof (default_contributions_length table items) as Hlen.
    fold unsupported in Hlen. lia.
  - exact Hkeys.
  - intros self args n Hmeta Hargs Hun Hin.
    unfold default_filter_args, Fields.fields in Hargs. rewrite Hmeta in Hargs.
    apply filter_fold_keys in Hargs as [_ Hargs].
    apply Hargs in Hin as [Hin|(g & Hin & _)]; [by apply not_elem_of_nil in Hin|].
    assert (n ∈ keys (Types.fields meta)) as Hn by (apply elem_of_keys; eauto).
    apply Hkeys in Hn as (f & Hf & Hsup).
    apply elem_of_keys in Hun as [f' Hf'].
    apply list_elem_of_filter in Hf' as [Hnone Hf']. simpl in Hnone.
    by rewrite (keys_unique items n f f' Hnd Hf Hf') in Hsup.
Qed.


(** ** is_type_of and resolve_id *)

(** C6.  On a type bound to the model class [m], [is_type_of] answers true
    for an instance of the type itself; for any other value it raises when
    the value's type is not a recognized model, and otherwise answers
    whether the value is an instance of [m]. *)
Theorem is_type_of_cases {ML : ModelLayer} (t : MongoengineObjectType) (m : pyclass)
    (root : pyobj) :
  Types.model (_meta t) = PyClass m →
  (isinstance root (cls t) = true → is_type_of t root = Ok true)
  ∧ (isinstance root (cls t) = false →
     is_valid_mongoengine_model (PyClass (type_of root)) = false →
     ∃ msg, is_type_of t root = Raise (Exception msg))
  ∧ (isinstance root (cls t) = false →
     is_valid_mongoengine_model (PyClass (type_of root)) = true →
     is_type_of t root = Ok (isinstance root m)).
Proof.
  intros Hmodel. unfold is_type_of. split_and!.
  - by intros ->.
  - intros -> ->. simpl. by eexists.
  - intros -> ->. simpl. by rewrite Hmodel.
Qed.

(** C7.  [resolve_id] is [str] of the instance's [id]: the decimal
    numeral of an integer identifier, a string identifier itself. *)
Theorem resolve_id_is_str_of_id (self : pyobj) (id : value) :
  getattr self "id" = Ok id →
  resolve_id self = Ok (str id)
  ∧ (∀ z, id = VInt z → resolve_id self = Ok (pretty z))
  ∧ (∀ s, id = VStr s → resolve_id self = Ok s).
Proof.
  intros Hid. unfold resolve_id. rewrite Hid. simpl.
  split_and!; [done| |]; by intros ? ->.
Qed.

(** Two integer identifiers with the same external identifier are equal. *)
Lemma resolve_id_int_inj (self1 self2 : pyobj) (z1 z2 : Z) :
  getattr self1 "id" = Ok (VInt z1) → getattr self2 "id" = Ok (VInt z2) →
  resolve_id self1 = resolve_id self2 → z1 = z2.
Proof.
  unfold resolve_id. intros -> ->. simpl.
  intros [= Heq]. by apply (inj pretty) in Heq.
Qed.

(** ** merge_querysets *)


(** The order of the operands does not matter. *)
Lemma merge_querysets_comm `{Set_ A C} (q1 q2 : C) :
  merge_querysets q1 q2 ≡ merge_querysets q2 q1.
Proof.
  unfold merge_querysets. intros x. rewrite !elem_of_intersection. tauto.
Qed.

(** ** The arguments of a connection field *)


Section to_arguments.
Implicit Types (items acc res : odict argvalue).

Lemma to_arguments_loop_ok items acc res :
  to_arguments_loop items acc = Ok res →
  (∀ n, n ∈ keys items → n ∉ keys acc)
  ∧ ∀ n a, (n, a) ∈ res
      ↔ (n, a) ∈ acc ∨ ∃ v, (n, v) ∈ items ∧ as_argument n v = Ok a.
Proof.
  revert acc. induction items as [|[k v] items IH]; intros acc; simpl.
  - intros [= <-]. split.
    + intros n Hn. by apply not_elem_of_nil in Hn.
    + intros n a. split; [by left|].
      intros [?|(? & Hin & _)]; [done | by apply not_elem_of_nil in Hin].
  - destruct (as_argument k v) as [a'|e] eqn:Harg; simpl; [|done].
    destruct (contains (keys acc) k) eqn:Hk; simpl; [done|].
    apply contains_false in Hk. rewrite (od_set_fresh _ _ _ Hk).
    intros Hloop. apply IH in Hloop as [Hfresh Hres]. split.
    + intros n Hn Hacc. apply elem_of_cons in Hn as [->|Hn]; [done|].
      apply (Hfresh n Hn). rewrite keys_app. apply elem_of_app. by left.
    + intros n a. rewrite Hres, elem_of_app, list_elem_of_singleton. split.
      * intros [[?|[= -> ->]]|(w & Hin & Hw)]; [by left| |].
        -- right. exists v. split; [apply list_elem_of_here | done].
        -- right. exists w. split; [by apply list_elem_of_further | done].
      * intros [?|(w & Hin & Hw)]; [by left; left|].
        apply elem_of_cons in Hin as [[= -> ->]|Hin].
        -- left; right. congruence.
        -- right. by exists w.
Qed.

Lemma to_arguments_loop_taken items acc n :
  n ∈ keys acc → n ∈ keys items → raises (to_arguments_loop items acc) = true.
Proof.
  revert acc. induction items as [|[k v] items IH]; intros acc Hacc Hn; simpl.
  - by apply not_elem_of_nil in Hn.
  - destruct (as_argument k v) as [a'|e]; simpl; [|done].
    destruct (contains (keys acc) k) eqn:Hk; simpl; [done|].
    apply contains_false in Hk.
    apply elem_of_cons in Hn as [->|Hn]; [done|].
    apply IH; [|done]. apply elem_of_keys_od_set. by right.
Qed.

Lemma to_arguments_loop_twice l1 l2 acc n :
  n ∈ keys l1 → n ∈ keys l2 → raises (to_arguments_loop (l1 ++ l2) acc) = true.
Proof.
  revert acc. induction l1 as [|[k v] l1 IH]; intros acc H1 H2; simpl.
  - by apply not_elem_of_nil in H1.
  - destruct (as_argument k v) as [a'|e]; simpl; [|done].
    destruct (contains (keys acc) k) eqn:Hk; simpl; [done|].
    apply elem_of_cons in H1 as [->|H1].
    + apply to_arguments_loop_taken with (n := k).
      * apply elem_of_keys_od_set. by left.
      * rewrite keys_app. apply elem_of_app. by right.
    + by apply IH.
Qed.

Lemma extra_args_sorted (extra : odict argvalue) :
  (if nonempty extra then sorted_by (λ kv, arg_counter kv.2) extra else []) ≡ₚ extra.
Proof. destruct extra; [done|]. apply sorted_by_perm. Qed.

End to_arguments.

(** C8, as the code has it.  When the derived filter arguments exist, the
    arguments of a connection field, if [to_arguments] returns any, are
    exactly the declared ones and the derived ones, each mounted as an
    argument, and no name is both declared and derived; a name that is
    both makes [args] raise: neither argument takes precedence. *)
Theorem args_are_declared_and_derived (self : MongoengineConnectionField)
    (derived : odict argvalue) :
  default_filter_args self = Ok derived →
  (∀ table, args self = Ok table →
     (∀ n a, (n, a) ∈ table
        ↔ (∃ b, (n, b) ∈ base_args self ∧ as_argument n b = Ok a)
          ∨ (∃ d, (n, d) ∈ derived ∧ as_argument n d = Ok a))
     ∧ (∀ n, n ∈ keys (base_args self) → n ∉ keys derived))
  ∧ (∀ n, n ∈ keys (base_args self) → n ∈ keys derived →
     raises (args self) = true).
Proof.
  intros Hderived. unfold args. rewrite Hderived. simpl. unfold to_arguments.
  pose proof (extra_args_sorted derived) as Hperm.
  set (extra := if nonempty derived then _ else _) in *.
  split.
  - intros table Htable. split.
    + intros n a. apply to_arguments_loop_ok in Htable as [_ Hres].
      rewrite Hres. split.
      * intros [Hnil|(v & Hin & Hv)]; [by apply not_elem_of_nil in Hnil|].
        apply elem_of_app in Hin as [Hin|Hin]; [left|right]; exists v; split;
          try done. by rewrite <- Hperm.
      * intros [(b & Hin & Hb)|(d & Hin & Hd)]; right.
        -- exists b. split; [|done]. apply elem_of_app. by left.
        -- exists d. split; [|done]. apply elem_of_app. right. by rewrite Hperm.
    + intros n Hbase Hder.
      assert (raises (to_arguments_loop (base_args self ++ extra) []) = true) as Hr.
      { apply to_arguments_loop_twice with (n := n); [done|].
        unfold keys. by rewrite Hperm. }
      by rewrite Htable in Hr.
  - intros n Hbase Hder.
    apply to_arguments_loop_twice with (n := n); [done|].
    unfold keys. by rewrite Hperm.
Qed.

(** ** connection_resolver *)

Section connection_resolver.
Context {St : Store} {Codec : CursorCodec}.
Implicit Types (resolver : pyobj → ResolveInfo → kwargs → iterable).
Implicit Types (args : kwargs) (it : iterable) (l : list instance).




(** The iterable the connection is built from. *)
Lemma resolved_iterable resolver (connection model root : pyobj) info args :
  ∃ env,
    (connection_resolver resolver connection model root info args).1 = Ok env
    ∧ iterable_ env
      = (if has_data (resolver root info args) then resolver root info args
         else IQuery (get_query model info args).1)
    ∧ length_ env = Z.of_nat (length (docs (iterable_ env)))
    ∧ Fields.connection env
      = connection_from_list_slice (docs (iterable_ env)) args 0
          (length_ env) (length_ env) connection.
Proof.
  unfold connection_resolver.
  destruct (has_data (resolver root info args)) eqn:Hdata; simpl.
  - destruct (resolver root info args) as [|l|q] eqn:Hres; [done| |];
      simpl; by eexists.
  - destruct (get_query model info args) as [q calls]. simpl. by eexists.
Qed.

Lemma resolver_trace resolver (connection model root : pyobj) info args :
  (connection_resolver resolver connection model root info args).2
  = CallResolver root args
      :: (if has_data (resolver root info args) then []
          else (get_query model info args).2).
Proof.
  unfold connection_resolver.
  destruct (has_data (resolver root info args)); simpl; [done|].
  by destruct (get_query model info args).
Qed.

End connection_resolver.


(** C2.  The upstream resolver is called first; the store is queried, by
    [get_query] with the caller's arguments, exactly when it returns
    nothing; [get_query] filters [model.objects()] by the arguments when
    there are any and returns [model.objects()] when there are none. *)
Theorem resolver_first_then_query {St : Store} {Codec : CursorCodec}
    (resolver : pyobj → ResolveInfo → kwargs → iterable)
    (connection model root : pyobj) (info : ResolveInfo) (args : kwargs) :
  let upstream := resolver root info args in
  let r := connection_resolver resolver connection model root info args in
  head r.2 = Some (CallResolver root args)
  ∧ (CallObjects model ∈ r.2 ↔ has_data upstream = false)
  ∧ r.2 = CallResolver root args
            :: (if has_data upstream then [] else (get_query model info args).2)
  ∧ (∃ env, r.1 = Ok env
       ∧ iterable_ env
         = if has_data upstream then upstream
           else IQuery (get_query model info args).1)
  ∧ (args ≠ ∅ →
     get_query model info args
     = (qs_filter (objects model) args, [CallObjects model; CallFilter args]))
  ∧ (args = ∅ → get_query model info args = (objects model, [CallObjects model])).
Proof.
  intros upstream r. unfold r.
  rewrite resolver_trace. fold upstream. split_and!.
  - done.
  - destruct (has_data upstream); split; try done.
    + intros Hin. apply elem_of_cons in Hin as [?|Hin]; [done|].
      by apply not_elem_of_nil in Hin.
    + intros _. apply list_elem_of_further. unfold get_query.
      case_bool_decide; simpl; apply list_elem_of_here.
  - done.
  - destruct (resolved_iterable resolver connection model root info args)
      as (env & Henv & Hit & _). by exists env.
  - intros Hargs. unfold get_query. by rewrite bool_decide_eq_true_2.
  - intros Hargs. unfold get_query. by rewrite bool_decide_eq_false_2 by auto.
Qed.

(** * Further properties *)

Import ConnectionField.

(** ** The field set in the model's order *)

Section field_order.
Context {ML : ModelLayer}.
Implicit Types (only exclude : list string) (registry : Registry).
Implicit Types (items : odict ModelField).

Lemma contribution_key registry only exclude (kv : string * ModelField) c :
  contribution registry only exclude kv = Some c → c.1 = kv.1.
Proof.
  unfold contribution. case_decide; [|done].
  destruct (convert_mongoengine_field kv.2 registry); [|done].
  by intros [= <-].
Qed.

Lemma contributions_sublist registry only exclude items :
  keys (omap (contribution registry only exclude) items) `sublist_of` keys items.
Proof.
  induction items as [|kv items IH]; csimpl; [done|].
  destruct (contribution registry only exclude kv) as [c|] eqn:Hc; csimpl.
  - rewrite (contribution_key _ _ _ _ _ Hc). by apply sublist_skip.
  - by apply sublist_cons.
Qed.

Lemma od_get_not_key {V} n (d : odict V) : n ∉ keys d → od_get n d = None.
Proof. apply od_get_None. Qed.

Lemma od_get_contributions registry only exclude items n f :
  NoDup (keys items) → (n, f) ∈ items →
  od_get n (omap (contribution registry only exclude) items)
  = snd <$> contribution registry only exclude (n, f).
Proof.
  induction items as [|[k g] items IH]; intros Hnd Hin.
  - by apply not_elem_of_nil in Hin.
  - change (keys ((k, g) :: items)) with (k :: keys items) in Hnd.
    apply NoDup_cons in Hnd as [Hk Hnd].
    apply elem_of_cons in Hin as [[= -> ->]|Hin]; csimpl.
    + destruct (contribution registry only exclude (k, g)) as [c|] eqn:Hc; csimpl.
      * pose proof (contribution_key _ _ _ _ _ Hc) as Hkey. simpl in Hkey.
        destruct c as [k' g']. simpl in *. subst k'. by rewrite decide_True.
      * apply od_get_not_key. intros Hin. apply Hk.
        by apply (elem_of_sublist _ _ _ Hin (contributions_sublist registry only exclude items)).
    + assert (n ≠ k) as Hne.
      { intros ->. apply Hk, elem_of_keys. by exists f. }
      destruct (contribution registry only exclude (k, g)) as [c|] eqn:Hc; csimpl.
      * pose proof (contribution_key _ _ _ _ _ Hc) as Hkey. simpl in Hkey.
        destruct c as [k' g']. simpl in *. subst k'.
        rewrite decide_False by done. by apply IH.
      * by apply IH.
Qed.

End field_order.

(** X1.  Over a model whose field names are distinct, the fields
    [construct_fields] builds follow the order of the model's fields, and
    each kept name is bound to what the converter returns for that field. *)
Theorem construct_fields_keeps_model_order {ML : ModelLayer} (model : pyobj)
    (registry : Registry) (only_fields exclude_fields : list string) :
  NoDup (keys (get_model_fields model)) →
  keys (construct_fields model registry only_fields exclude_fields)
    `sublist_of` keys (get_model_fields model)
  ∧ ∀ n f, (n, f) ∈ get_model_fields model →
      od_get n (construct_fields model registry only_fields exclude_fields)
      = if decide ((only_fields = [] ∨ n ∈ only_fields) ∧ n ∉ exclude_fields)
        then convert_mongoengine_field f registry
        else None.
Proof.
  intros Hnd.
  assert (construct_fields model registry only_fields exclude_fields
          = omap (contribution registry only_fields exclude_fields)
                 (get_model_fields model)) as ->.
  { exact (construct_fold_nodup registry only_fields exclude_fields
             (get_model_fields model) ([], []) Hnd). }
  split; [apply contributions_sublist|].
  intros n f Hin. rewrite (od_get_contributions _ _ _ _ n f Hnd Hin).
  unfold contribution. simpl. case_decide; [|done].
  by destruct (convert_mongoengine_field f registry).
Qed.

Lemma fold_left_ext_in {A B} (f g : A → B → A) (l : list B) (a : A) :
  (∀ a x, x ∈ l → f a x = g a x) → fold_left f l a = fold_left g l a.
Proof.
  revert a. induction l as [|x l IH]; intros a Hfg; simpl; [done|].
  rewrite (Hfg a x) by apply list_elem_of_here.
  apply IH. intros a' y Hy. apply Hfg. by apply list_elem_of_further.
Qed.

(** X2.  [construct_fields] reads [only_fields] and [exclude_fields] only
    through the names of the model's fields: two pairs of tuples that keep
    the same model fields give the same field set and the same converter
    calls, whatever else they list and in whatever order. *)
Theorem construct_fields_reads_model_names_only {ML : ModelLayer} (model : pyobj)
    (registry : Registry) (only_fields exclude_fields only_fields' exclude_fields' : list string) :
  (∀ n, n ∈ keys (get_model_fields model) →
     (only_fields = [] ∨ n ∈ only_fields) ∧ n ∉ exclude_fields
     ↔ (only_fields' = [] ∨ n ∈ only_fields') ∧ n ∉ exclude_fields') →
  construct_fields model registry only_fields exclude_fields
  = construct_fields model registry only_fields' exclude_fields'
  ∧ converter_calls model registry only_fields exclude_fields
    = converter_calls model registry only_fields' exclude_fields'.
Proof.
  intros Hsame.
  assert (construct_fields_traced model registry only_fields exclude_fields
          = construct_fields_traced model registry only_fields' exclude_fields') as Heq.
  { unfold construct_fields_traced. apply fold_left_ext_in.
    intros [fields calls] [name field] Hin. unfold construct_step.
    assert (name ∈ keys (get_model_fields model)) as Hname
      by (apply elem_of_keys; eauto).
    specialize (Hsame name Hname). rewrite <- !kept_iff in Hsame.
    destruct (nonempty only_fields && negb (contains only_fields name)
              || contains exclude_fields name),
             (nonempty only_fields' && negb (contains only_fields' name)
              || contains exclude_fields' name); try done.
    - by destruct Hsame as [_ Hs]; specialize (Hs eq_refl).
    - by destruct Hsame as [Hs _]; specialize (Hs eq_refl). }
  unfold construct_fields, converter_calls. by rewrite Heq.
Qed.

(** ** What a built type holds *)

Section built_type.
Context {ML : ModelLayer}.

Lemma check_connection_ok (c : pyobj) :
  check_connection c = Ok tt
  ↔ c = None_ ∨ ∃ k, c = PyClass k ∧ subclass k Connection = true.
Proof.
  unfold check_connection. case_bool_decide as Hnone.
  - split; [by left | done].
  - destruct c as [v|k|o|d|r]; simpl;
      try (split; [done | by intros [?|(? & ? & _)]]).
    destruct (subclass k Connection) eqn:Hk; simpl.
    + split; [|done]. intros _. right. by exists k.
    + split; [done|]. intros [?|(k' & [= <-] & ?)]; [done | congruence].
Qed.

Lemma build_inv (cls : pyclass) (model registry : pyobj) (skip : bool)
    (only exclude : list string) (ff : option (list string))
    (connection connection_class : pyobj) (use_connection : option bool)
    (interfaces : list pyclass) (g : Registry) meta g' :
  __init_subclass_with_meta__ cls model registry skip only exclude ff
    connection connection_class use_connection interfaces g = Ok (meta, g') →
  let table := table_of (registry_in_effect registry g) in
  let registered := if skip then table else register table model cls in
  is_valid_mongoengine_model model = true
  ∧ isinstance (registry_in_effect registry g) Registry_class = true
  ∧ connection_in_effect cls connection connection_class
      (connection_required use_connection interfaces) = Ok (Types.connection meta)
  ∧ check_connection (Types.connection meta) = Ok tt
  ∧ Types.registry meta = registered
  ∧ registry_is_global meta = negb (truthy registry)
  ∧ g' = (if negb (truthy registry) then registered else g).
Proof.
  unfold __init_subclass_with_meta__.
  destruct (is_valid_mongoengine_model model); simpl; [|done].
  destruct (isinstance (registry_in_effect registry g) Registry_class); simpl; [|done].
  destruct (connection_in_effect _ _ _ _) as [c|e]; simpl; [|done].
  destruct (check_connection c) as [[]|e] eqn:Hc; simpl; [|done].
  by intros [= <- <-].
Qed.

Lemma construct_step_nodup registry only exclude
    (acc : odict gfield * odict ModelField) item :
  NoDup (keys acc.1) → NoDup (keys (construct_step registry only exclude acc item).1).
Proof.
  destruct acc as [fields calls], item as [name field]. unfold construct_step. simpl.
  destruct (_ || _); [done|].
  destruct (convert_mongoengine_field field registry); [|done].
  simpl. apply nodup_keys_od_set.
Qed.

Lemma construct_fields_nodup (model : pyobj) registry only exclude :
  NoDup (keys (construct_fields model registry only exclude)).
Proof.
  unfold construct_fields, construct_fields_traced.
  assert (∀ items acc, NoDup (keys acc.1) →
            NoDup (keys (fold_left (construct_step registry only exclude) items acc).1))
    as Hfold.
  { induction items as [|item items IH]; intros acc Hacc; simpl; [done|].
    by apply IH, construct_step_nodup. }
  apply Hfold. simpl. apply NoDup_nil_2.
Qed.

End built_type.

(** X3.  A type that builds holds a recognized model, distinct field
    names, and a connection that is either [None] or a class deriving from
    [Connection]. *)
Theorem built_type_is_well_formed {ML : ModelLayer} (cls : pyclass)
    (model registry : pyobj) (skip_registry : bool)
    (only_fields exclude_fields : list string) (filter_fields : option (list string))
    (connection connection_class : pyobj) (use_connection : option bool)
    (interfaces : list pyclass) (global_registry : Registry)
    (meta : MongoengineObjectTypeOptions) (global_registry' : Registry) :
  __init_subclass_with_meta__ cls model registry skip_registry only_fields
    exclude_fields filter_fields connection connection_class use_connection
    interfaces global_registry = Ok (meta, global_registry') →
  is_valid_mongoengine_model (Types.model meta) = true
  ∧ NoDup (keys (Types.fields meta))
  ∧ (Types.connection meta = None_
     ∨ ∃ k, Types.connection meta = PyClass k ∧ subclass k Connection = true).
Proof.
  intros Hbuild.
  pose proof (build_ok _ _ _ _ _ _ _ _ _ _ _ _ _ _ Hbuild) as (Hfields & _ & Hmodel).
  apply build_inv in Hbuild as (Hvalid & _ & _ & Hcheck & _).
  split_and!.
  - by rewrite <- Hmodel.
  - rewrite Hfields, yank_keys_perm. apply construct_fields_nodup.
  - by apply check_connection_ok.
Qed.


(** X5.  With neither [connection], [connection_class] nor
    [use_connection] declared, a type gets a connection exactly when one
    of its interfaces derives from [Node]; the connection is then the
    class [<name>Connection], a direct subclass of [Connection]. *)
Theorem node_interface_creates_connection {ML : ModelLayer} (cls : pyclass)
    (model registry : pyobj) (skip_registry : bool)
    (only_fields exclude_fields : list string) (filter_fields : option (list string))
    (interfaces : list pyclass) (global_registry : Registry)
    (meta : MongoengineObjectTypeOptions) (global_registry' : Registry) :
  __init_subclass_with_meta__ cls model registry skip_registry only_fields
    exclude_fields filter_fields None_ None_ None interfaces global_registry
  = Ok (meta, global_registry') →
  Types.connection meta
  = if existsb (λ interface, subclass interface Node) interfaces
    then PyClass (derive (cls_name cls +:+ "Connection") Connection)
    else None_.
Proof.
  intros Hbuild. apply build_inv in Hbuild as (_ & _ & Hconn & _).
  unfold connection_in_effect, connection_required in Hconn.
  destruct interfaces as [|i interfaces]; simpl in *; [by injection Hconn|].
  destruct (subclass i Node || existsb _ interfaces); simpl in Hconn;
    by injection Hconn.
Qed.

(** X6.  Over a built type, the [type] of a connection field is the
    type's connection; it fails its assertion exactly when the type was
    built without one, that is, with no [connection] passed and none
    required by [use_connection] or a [Node] interface. *)
Theorem connection_field_needs_a_connection {ML : ModelLayer} (cls : pyclass)
    (model registry : pyobj) (skip_registry : bool)
    (only_fields exclude_fields : list string) (filter_fields : option (list string))
    (connection connection_class : pyobj) (use_connection : option bool)
    (interfaces : list pyclass) (global_registry : Registry)
    (meta : MongoengineObjectTypeOptions) (global_registry' : Registry)
    (self : MongoengineConnectionField) :
  __init_subclass_with_meta__ cls model registry skip_registry only_fields
    exclude_fields filter_fields connection connection_class use_connection
    interfaces global_registry = Ok (meta, global_registry') →
  subclass cls ConnectionField.MongoengineObjectType_class = true →
  _type self = {| Types.cls := cls; Types._meta := meta |} →
  (Types.connection meta = None_
   ↔ connection = None_ ∧ connection_required use_connection interfaces = false)
  ∧ (Types.connection meta = None_ →
     ConnectionField.type self
     = Raise (AssertionError "The type doesn't have a connection"))
  ∧ (Types.connection meta ≠ None_ →
     ConnectionField.type self = Ok (Types.connection meta)).
Proof.
  intros Hbuild Hsub Hself.
  apply build_inv in Hbuild as (_ & _ & Hconn & Hcheck & _).
  apply check_connection_ok in Hcheck.
  unfold ConnectionField.type. rewrite Hself. simpl. rewrite Hsub. simpl.
  split_and!.
  - unfold connection_in_effect in Hconn.
    destruct (connection_required use_connection interfaces); simpl in Hconn.
    + destruct (truthy connection) eqn:Ht; simpl in Hconn.
      * injection Hconn as <-. split; [|by intros [_ ?]].
        intros ->. done.
      * unfold create_type in Hconn.
        destruct (if truthy connection_class then connection_class else PyClass Connection);
          try done.
        injection Hconn as <-. split; [done | by intros [_ ?]].
    + injection Hconn as <-. split; [done | by intros [? _]].
  - by intros ->.
  - intros Hne. destruct Hcheck as [?|(k & -> & _)]; done.
Qed.

(** ** When the filter arguments can be derived *)

Section derivation.
Implicit Types (fs : odict gfield).

Lemma filter_step_raises (r : odict argvalue) kv :
  raises (filter_arg_step r kv) = true ↔ underivable kv.2.
Proof.
  unfold filter_arg_step, underivable.
  destruct (Graphene._type kv.2) as [t|].
  - destruct (_of_type t) as [[a|e]|] eqn:Hof; simpl.
    + split; [done|]. intros (t' & [= <-] & Hno). by destruct (Hno a).
    + split; [|done]. intros _. exists t. split; [done|]. congruence.
    + split; [|done]. intros _. exists t. split; [done|]. congruence.
  - simpl. split; [done|]. by intros (t & ? & _).
Qed.

Lemma filter_fold_raises fs (r : odict argvalue) :
  raises (foldl (λ acc kv, r ← acc; filter_arg_step r kv) (Ok r) fs) = true
  ↔ Exists (λ kv, underivable kv.2) fs.
Proof.
  revert r. induction fs as [|kv fs IH]; intros r; simpl.
  - split; [done|]. by intros ?%Exists_nil.
  - rewrite Exists_cons, <- (filter_step_raises r kv).
    destruct (filter_arg_step r kv) as [r'|e] eqn:Hstep; simpl.
    + rewrite IH. split; [by right | by intros [?|?]].
    + rewrite filter_fold_raise. simpl. split; [by left | done].
Qed.

Lemma filter_fold_first_failure l1 kv l2 (r : odict argvalue) e :
  Forall (λ kv, derivable kv.2) l1 →
  (∀ r', filter_arg_step r' kv = Raise e) →
  foldl (λ acc kv, r ← acc; filter_arg_step r kv) (Ok r) (l1 ++ kv :: l2) = Raise e.
Proof.
  intros Hl1 Hkv. rewrite foldl_app.
  destruct (filter_fold_total l1 r Hl1) as [table ->]. simpl.
  rewrite Hkv. apply filter_fold_raise.
Qed.

End derivation.

(** X7.  Deriving the filter arguments raises exactly when some field
    carries a [_type] whose [_of_type] is missing or cannot be called; the
    first such field in field order decides the exception, an
    [AttributeError] when the attribute is missing, and [args] raises the
    same exception. *)
Theorem filter_arguments_fail_iff (self : MongoengineConnectionField) :
  (raises (default_filter_args self) = true
   ↔ Exists (λ kv, underivable kv.2) (fields self))
  ∧ (∀ l1 n f l2 t,
       fields self = l1 ++ (n, f) :: l2 →
       Forall (λ kv, derivable kv.2) l1 →
       Graphene._type f = Some t → _of_type t = None →
       default_filter_args self = Raise (AttributeError "_of_type"))
  ∧ (∀ e, default_filter_args self = Raise e → args self = Raise e).
Proof.
  split_and!.
  - apply filter_fold_raises.
  - intros l1 n f l2 t Hfields Hl1 Ht Hof. unfold default_filter_args.
    rewrite Hfields. apply filter_fold_first_failure; [done|].
    intros r'. unfold filter_arg_step. simpl. by rewrite Ht, Hof.
  - intros e He. unfold args. by rewrite He.
Qed.

Section derived_table.
Implicit Types (fs : odict gfield).

Lemma filter_step_entry (r : odict argvalue) kv r' :
  filter_arg_step r kv = Ok r' → kv.1 ∉ keys r →
  r' = r ++ omap filter_entry [kv].
Proof.
  unfold filter_arg_step. csimpl. unfold filter_entry.
  destruct (Graphene._type kv.2) as [t|]; csimpl.
  - destruct (_of_type t) as [[a|e]|]; csimpl; try done.
    intros [= <-] Hfresh. by apply od_set_fresh.
  - intros [= <-] _. by rewrite app_nil_r.
Qed.

Lemma filter_entry_key kv e : filter_entry kv = Some e → e.1 = kv.1.
Proof.
  unfold filter_entry. destruct (Graphene._type kv.2) as [t|]; [|done].
  destruct (_of_type t) as [[a|?]|]; try done. by intros [= <-].
Qed.

Lemma filter_fold_entries fs (r : odict argvalue) table :
  foldl (λ acc kv, r ← acc; filter_arg_step r kv) (Ok r) fs = Ok table →
  NoDup (keys r ++ keys fs) →
  table = r ++ omap filter_entry fs.
Proof.
  revert r. induction fs as [|kv fs IH]; intros r; simpl.
  - intros [= <-] _. by rewrite app_nil_r.
  - destruct (filter_arg_step r kv) as [r'|e] eqn:Hstep; simpl;
      [|by rewrite filter_fold_raise].
    intros Hfold Hnd.
    change (keys (kv :: fs)) with (kv.1 :: keys fs) in Hnd.
    assert (kv.1 ∉ keys r) as Hfresh.
    { apply NoDup_app in Hnd as (_ & Hdisj & _). intros Hin.
      apply (Hdisj _ Hin), list_elem_of_here. }
    apply (filter_step_entry _ _ _ Hstep) in Hfresh as ->.
    apply IH in Hfold.
    + rewrite Hfold, <- app_assoc. f_equal. csimpl.
      by destruct (filter_entry kv).
    + rewrite keys_app. csimpl.
      destruct (filter_entry kv) as [e|] eqn:He; csimpl.
      * rewrite (filter_entry_key _ _ He), <- app_assoc. done.
      * rewrite app_nil_r. apply NoDup_app in Hnd as (Hr & Hdisj & Hfs).
        apply NoDup_cons in Hfs as [_ Hfs].
        apply NoDup_app. split_and!; [done| |done].
        intros x Hx Hin. apply (Hdisj x Hx). by apply list_elem_of_further.
Qed.

End derived_table.

(** X8.  Over fields with distinct names, the derived filter arguments
    list the fields that carry a [_type], in field order, each under its
    own name with the instance its [_of_type()] returns. *)
Theorem filter_arguments_follow_the_fields (self : MongoengineConnectionField)
    (table : odict argvalue) :
  NoDup (keys (fields self)) →
  default_filter_args self = Ok table →
  table = omap filter_entry (fields self)
  ∧ keys table `sublist_of` keys (fields self)
  ∧ ∀ n f t a, (n, f) ∈ fields self → Graphene._type f = Some t →
      _of_type t = Some (Ok a) → od_get n table = Some a.
Proof.
  intros Hnd Htable.
  apply filter_fold_entries in Htable; [|done]. simpl in Htable. subst table.
  assert (∀ fs, keys (omap filter_entry fs) `sublist_of` keys fs) as Hsub.
  { induction fs as [|kv fs IH]; csimpl; [done|].
    destruct (filter_entry kv) as [e|] eqn:He; csimpl.
    - rewrite (filter_entry_key _ _ He). by apply sublist_skip.
    - by apply sublist_cons. }
  split_and!; [done | apply Hsub |].
  intros n f t a Hin Ht Hof.
  induction (fields self) as [|[k g] fs IH]; [by apply not_elem_of_nil in Hin|].
  change (keys ((k, g) :: fs)) with (k :: keys fs) in Hnd.
  apply NoDup_cons in Hnd as [Hk Hnd]. csimpl.
  apply elem_of_cons in Hin as [[= <- <-]|Hin].
  - unfold filter_entry at 1. simpl. rewrite Ht, Hof. simpl. by rewrite decide_True.
  - assert (n ≠ k) as Hne.
    { intros ->. apply Hk. apply (list_elem_of_fmap_2 fst) in Hin. done. }
    destruct (filter_entry (k, g)) as [[k' a']|] eqn:He; csimpl.
    + apply filter_entry_key in He. simpl in He. subst k'.
      rewrite decide_False by done. by apply IH.
    + by apply IH.
Qed.

(** ** When the arguments can be built *)

Section arguments.
Implicit Types (items acc res : odict argvalue).

Lemma as_argument_ok n a a' : as_argument n a = Ok a' → accepted a ∧ a' = mounted a.
Proof. destruct a; simpl; intros [= <-] || done; done. Qed.

Lemma as_argument_accepted n a : accepted a → as_argument n a = Ok (mounted a).
Proof. by destruct a. Qed.

Lemma to_arguments_loop_exact items acc res :
  to_arguments_loop items acc = Ok res →
  res = acc ++ (prod_map id mounted <$> items)
  ∧ Forall (λ kv, accepted kv.2) items
  ∧ (NoDup (keys acc) → NoDup (keys acc ++ keys items)).
Proof.
  revert acc. induction items as [|[k v] items IH]; intros acc; simpl.
  - intros [= <-]. rewrite !app_nil_r. done.
  - destruct (as_argument k v) as [a'|e] eqn:Harg; simpl; [|done].
    apply as_argument_ok in Harg as [Hacc ->].
    destruct (contains (keys acc) k) eqn:Hk; simpl; [done|].
    apply contains_false in Hk. rewrite (od_set_fresh _ _ _ Hk).
    intros Hloop. apply IH in Hloop as (-> & Hall & Hnd).
    split_and!.
    + by rewrite <- app_assoc.
    + by constructor.
    + intros Hnacc. change (keys ((k, v) :: items)) with (k :: keys items).
      rewrite keys_app in Hnd. simpl in Hnd. rewrite <- app_assoc in Hnd.
      apply Hnd. apply NoDup_app. split_and!; [done| |apply NoDup_singleton].
      intros x Hx ->%list_elem_of_singleton. done.
Qed.

Lemma to_arguments_loop_total items acc :
  NoDup (keys acc ++ keys items) → Forall (λ kv, accepted kv.2) items →
  ∃ res, to_arguments_loop items acc = Ok res.
Proof.
  revert acc. induction items as [|[k v] items IH]; intros acc Hnd Hall; simpl.
  - by eexists.
  - apply Forall_cons in Hall as [Hv Hall]. simpl in Hv.
    rewrite (as_argument_accepted k v Hv). simpl.
    change (keys ((k, v) :: items)) with (k :: keys items) in Hnd.
    assert (k ∉ keys acc) as Hfresh.
    { apply NoDup_app in Hnd as (_ & Hdisj & _). intros Hin.
      apply (Hdisj _ Hin), list_elem_of_here. }
    rewrite (proj2 (contains_false _ _) Hfresh). simpl.
    rewrite (od_set_fresh _ _ _ Hfresh). apply IH; [|done].
    rewrite keys_app. simpl. by rewrite <- app_assoc.
Qed.

Lemma sorted_extra (extra : odict argvalue) :
  (if nonempty extra then sorted_by (λ kv, arg_counter kv.2) extra else [])
  = sorted_by (λ kv, arg_counter kv.2) extra.
Proof. by destruct extra. Qed.

End arguments.

(** X9.  When [args] returns a table, the table holds the declared
    arguments first, in their order, then the derived ones by creation
    counter, each mounted as an argument under its own name, and no name
    twice. *)
Theorem args_lists_declared_then_derived (self : MongoengineConnectionField)
    (derived table : odict argvalue) :
  default_filter_args self = Ok derived →
  args self = Ok table →
  table = prod_map id mounted
            <$> (base_args self ++ sorted_by (λ kv, arg_counter kv.2) derived)
  ∧ keys table
    = keys (base_args self) ++ keys (sorted_by (λ kv, arg_counter kv.2) derived)
  ∧ NoDup (keys table).
Proof.
  intros Hderived. unfold args. rewrite Hderived. simpl. unfold to_arguments.
  rewrite sorted_extra. intros Htable.
  apply to_arguments_loop_exact in Htable as (-> & _ & Hnd). simpl in *.
  assert (∀ l : odict argvalue, keys (prod_map id mounted <$> l) = keys l) as Hkeys.
  { intros l. unfold keys. rewrite <- list_fmap_compose. apply list_fmap_ext.
    by intros i [? ?] _. }
  split_and!; [done | by rewrite Hkeys, keys_app |].
  rewrite Hkeys. apply Hnd, NoDup_nil_2.
Qed.

(** X10.  Once the filter arguments are derived, [args] returns a table
    exactly when every declared and derived value can be mounted as an
    argument and no name occurs twice among the declared and the derived
    names. *)
Theorem args_succeeds_iff (self : MongoengineConnectionField) (derived : odict argvalue) :
  default_filter_args self = Ok derived →
  is_ok (args self) = true
  ↔ NoDup (keys (base_args self) ++ keys derived)
    ∧ Forall (λ kv, accepted kv.2) (base_args self ++ derived).
Proof.
  intros Hderived. unfold args. rewrite Hderived. simpl. unfold to_arguments.
  rewrite sorted_extra.
  pose proof (sorted_by_perm (λ kv : string * argvalue, arg_counter kv.2) derived) as Hperm.
  set (extra := sorted_by _ derived) in *.
  assert (keys (base_args self ++ extra) ≡ₚ keys (base_args self) ++ keys derived) as Hk.
  { rewrite keys_app. unfold keys. by rewrite Hperm. }
  split.
  - destruct (to_arguments_loop (base_args self ++ extra) []) as [res|e] eqn:Hloop;
      [|done].
    intros _. apply to_arguments_loop_exact in Hloop as (_ & Hall & Hnd).
    split.
    + rewrite <- Hk. apply (Hnd (NoDup_nil_2)).
    + by rewrite <- Hperm.
  - intros [Hnd Hall].
    destruct (to_arguments_loop_total (base_args self ++ extra) []) as [res ->];
      [| |done].
    + simpl. by rewrite Hk.
    + by rewrite Hperm.
Qed.

(** ** Pages of a connection *)

Section pages.
Context {St : Store} {Codec : CursorCodec}.
Implicit Types (args : kwargs) (l : list instance).




Lemma pagination_only l args args' (a b c : Z) (connection_type : pyobj) :
  args !! "before" = args' !! "before" → args !! "after" = args' !! "after" →
  args !! "first" = args' !! "first" → args !! "last" = args' !! "last" →
  connection_from_list_slice l args a b c connection_type
  = connection_from_list_slice l args' a b c connection_type.
Proof. intros Hb Ha Hf Hl. unfold connection_from_list_slice. by rewrite Hb, Ha, Hf, Hl. Qed.

End pages.


(** X12.  When the upstream resolver supplies data, the store is not
    called and the arguments only paginate: two calls whose arguments agree
    on [before], [after], [first] and [last], and whose upstream results
    are the same, return the same envelope. *)
Theorem filters_do_not_apply_to_resolved_data {St : Store} {Codec : CursorCodec}
    (resolver : pyobj → ResolveInfo → kwargs → iterable)
    (connection model root : pyobj) (info : ResolveInfo) (args args' : kwargs) :
  has_data (resolver root info args) = true →
  resolver root info args' = resolver root info args →
  args !! "before" = args' !! "before" → args !! "after" = args' !! "after" →
  args !! "first" = args' !! "first" → args !! "last" = args' !! "last" →
  (connection_resolver resolver connection model root info args).2
  = [CallResolver root args]
  ∧ (connection_resolver resolver connection model root info args).1
    = (connection_resolver resolver connection model root info args').1.
Proof.
  intros Hdata Hsame Hb Ha Hf Hl. split.
  - by rewrite resolver_trace, Hdata.
  - unfold connection_resolver. rewrite Hsame, Hdata. simpl.
    destruct (len (resolver root info args)) as [n|e]; simpl; [|done].
    by rewrite (pagination_only _ args args' _ _ _ _ Hb Ha Hf Hl).
Qed.

Section first_and_last.
Context {Codec : CursorCodec}.
Implicit Types (args : kwargs) (l : list instance).






End first_and_last.



(** ** External identifiers *)

(** X15.  Two instances whose identifiers are both integers, or both
    strings, and which resolve to the same external identifier have the
    same identifier; an integer and the string of its numeral resolve to
    the same external identifier. *)
Theorem resolve_id_is_injective_per_kind (self1 self2 : pyobj) (id1 id2 : value) :
  getattr self1 "id" = Ok id1 → getattr self2 "id" = Ok id2 →
  ((∃ z1 z2, id1 = VInt z1 ∧ id2 = VInt z2) ∨ (∃ s1 s2, id1 = VStr s1 ∧ id2 = VStr s2) →
   resolve_id self1 = resolve_id self2 → id1 = id2)
  ∧ (∀ z, id1 = VInt z → id2 = VStr (pretty z) → resolve_id self1 = resolve_id self2).
Proof.
  intros H1 H2. unfold resolve_id. rewrite H1, H2. simpl. split.
  - intros [(z1 & z2 & -> & ->)|(s1 & s2 & -> & ->)]; simpl; intros [= Heq].
    + f_equal. by apply (inj pretty) in Heq.
    + by rewrite Heq.
  - by intros z -> ->.
Qed.

(** ** The page after a cursor *)

Section after_cursor.
Context {Codec : CursorCodec}.
Implicit Types (args : kwargs) (l : list instance).




End after_cursor.

(** * The properties on the test fixtures *)

Import Fixtures.

(** The [Place] model of the fixtures has three fields, one of them a
    [GeoPointField] the converter does not know: its type builds, with two
    fields. *)
Lemma unsupported_fields_are_skipped_on_place :
  ∃ meta global_registry',
    __init_subclass_with_meta__ PlaceNode (PyClass Place) None_ false
      [] [] None None_ None_ None [Node] ∅ = Ok (meta, global_registry')
    ∧ length (Types.fields meta) = 2%nat
    ∧ "location" ∉ keys (Types.fields meta).
Proof.
  assert (NoDup (keys (fields_of (PyClass Place)))) as Hnd.
  { apply (bool_decide_unpack _). by vm_compute. }
  destruct (unsupported_fields_are_skipped PlaceNode (PyClass Place)
              None_ false None None [Node] ∅)
    as (meta & g' & Hbuild & Hlen & Hkeys & _).
  - exact Hnd.
  - reflexivity.
  - reflexivity.
  - discriminate.
  - exists meta, g'. split_and!; [exact Hbuild | exact Hlen |].
    rewrite Hkeys. intros (f & Hin & Hf). apply Hf. clear Hf.
    assert (("location", {| kind := GeoPointField; counter := 8 |})
              ∈ fields_of (PyClass Place)) as Hloc.
    { apply (bool_decide_unpack _). by vm_compute. }
    by rewrite (keys_unique _ _ _ _ Hnd Hin Hloc).
Defined.

Example declared_is_built :
  __init_subclass_with_meta__ ArticleNode (PyClass Article) (PyRegistry ∅) false
    [] [] (Some ["headline"]) None_ None_ (Some false) [] ∅
  = Ok (_meta (declared ArticleNode Article (Some ["headline"])), ∅).
Proof. by vm_compute. Qed.



(** A stored editor is of the type declared for [Editor]. *)
Lemma penny_is_an_editor_node :
  Types.model (_meta (declared EditorNode Editor None)) = PyClass Editor
  ∧ is_type_of (declared EditorNode Editor None) (PyInst penny) = Ok true.
Proof.
  split; [reflexivity|].
  destruct (is_type_of_cases (declared EditorNode Editor None) Editor (PyInst penny))
    as (_ & _ & H3); [reflexivity|].
  rewrite H3; reflexivity.
Defined.

Lemma editor_ids_resolve :
  getattr (PyInst penny) "id" = Ok (VInt 1)
  ∧ resolve_id (PyInst penny) = Ok "1".
Proof.
  assert (getattr (PyInst penny) "id" = Ok (VInt 1)) as Hid by by vm_compute.
  split; [exact Hid|].
  destruct (resolve_id_is_str_of_id (PyInst penny) (VInt 1) Hid) as (_ & Hint & _).
  by rewrite (Hint 1 eq_refl).
Defined.



(** The trace of [test_should_filter]: the root resolver has nothing, so
    the store is asked for the articles and filtered by the argument. *)
Example filtered_articles_trace :
  (connection_resolver root_resolver (PyClass Connection) (PyClass Article)
     None_ info {["headline" := VStr "World"]}).2
  = [CallResolver None_ {["headline" := VStr "World"]};
     CallObjects (PyClass Article);
     CallFilter {["headline" := VStr "World"]}].
Proof. reflexivity. Qed.

Example filtered_articles_nodes :
  (λ env, node <$> edges (Fields.connection env))
    <$> (connection_resolver root_resolver (PyClass Connection) (PyClass Article)
           None_ info {["headline" := VStr "World"]}).1
  = Ok [world].
Proof. by vm_compute. Qed.

(** The arguments of the connection of [test_should_filter]: the relay
    arguments and one filter argument per scalar field. *)
Lemma articles_arguments :
  ∃ derived table,
    default_filter_args articles = Ok derived
    ∧ args articles = Ok table
    ∧ ("first", Argument "Int" 22) ∈ table
    ∧ ("headline", Argument "String" 104) ∈ table
    ∧ "first" ∉ keys derived.
Proof.
  assert (default_filter_args articles
          = Ok [("id", Unmounted "ID" 103); ("headline", Unmounted "String" 104)])
    as Hderived by by vm_compute.
  destruct (args articles) as [table|e] eqn:Htable; [|by vm_compute in Htable].
  destruct (args_are_declared_and_derived articles _ Hderived) as [Hok _].
  destruct (Hok table Htable) as [Hmem Hdisj].
  eexists _, table. split_and!; [exact Hderived | done | | |].
  - apply Hmem. left. exists (Argument "Int" 22). split; [|done].
    apply (bool_decide_unpack _). by vm_compute.
  - apply Hmem. right. exists (Unmounted "String" 104). split; [|done].
    apply (bool_decide_unpack _). by vm_compute.
  - apply Hdisj. apply (bool_decide_unpack _). by vm_compute.
Defined.

(** A model field called [first] collides with the relay argument of that
    name: the arguments of the connection field cannot be built, and the
    declared argument does not take the place of the derived one. *)
Lemma declared_argument_does_not_win :
  od_get "first" (base_args podiums) = Some (Argument "Int" 22)
  ∧ od_get "first" <$> default_filter_args podiums = Ok (Some (Unmounted "String" 110))
  ∧ args podiums = Raise (AssertionError "More than one Argument have same name first").
Proof. by vm_compute. Qed.


(** * The further properties on the test fixtures *)

Lemma article_fields_in_model_order :
  NoDup (keys (get_model_fields (PyClass Article)))
  ∧ keys (construct_fields (PyClass Article) ∅ ["headline"; "id"] [])
      `sublist_of` ["id"; "headline"; "editor"]
  ∧ od_get "editor" (construct_fields (PyClass Article) ∅ ["headline"; "id"] []) = None.
Proof.
  assert (NoDup (keys (get_model_fields (PyClass Article)))) as Hnd.
  { apply (bool_decide_unpack _). by vm_compute. }
  split; [exact Hnd|].
  destruct (construct_fields_keeps_model_order (PyClass Article) ∅ ["headline"; "id"] [] Hnd)
    as [Hsub Hget].
  split; [exact Hsub|].
  rewrite (Hget "editor" {| kind := ReferenceField "Editor"; counter := 5 |}).
  - by vm_compute.
  - apply (bool_decide_unpack _). by vm_compute.
Defined.

Lemma unknown_names_are_ignored :
  construct_fields (PyClass Editor) ∅ ["first_name"] []
  = construct_fields (PyClass Editor) ∅ ["nickname"; "first_name"; "first_name"] ["salary"].
Proof.
  apply (construct_fields_reads_model_names_only (PyClass Editor) ∅).
  intros n Hn. apply list_elem_of_In in Hn. simpl in Hn.
  destruct Hn as [<-|[<-|[<-|[]]]]; apply (bool_decide_unpack _); by vm_compute.
Defined.

Lemma article_type_is_well_formed :
  is_valid_mongoengine_model (PyClass Article) = true
  ∧ NoDup (keys (Types.fields (_meta (declared ArticleNode Article (Some ["headline"])))))
  ∧ Types.connection (_meta (declared ArticleNode Article (Some ["headline"]))) = None_.
Proof.
  destruct (built_type_is_well_formed _ _ _ _ _ _ _ _ _ _ _ _ _ _ declared_is_built)
    as (Hvalid & Hnd & _).
  split_and!; [exact Hvalid | exact Hnd | reflexivity].
Defined.


Lemma editor_node_gets_a_connection :
  ∃ meta global_registry',
    __init_subclass_with_meta__ EditorNode (PyClass Editor) None_ false [] [] None
      None_ None_ None [Node] ∅ = Ok (meta, global_registry')
    ∧ Types.connection meta = PyClass (derive "EditorNodeConnection" Connection).
Proof.
  destruct (__init_subclass_with_meta__ EditorNode (PyClass Editor) None_ false [] [] None
              None_ None_ None [Node] ∅) as [[meta g']|e] eqn:Hbuild;
    [|by vm_compute in Hbuild].
  exists meta, g'. split; [done|].
  by rewrite (node_interface_creates_connection _ _ _ _ _ _ _ _ _ _ _ Hbuild).
Defined.

(** [ArticleNode] declared without a [Node] interface has no connection:
    a connection field over it has no type. *)
Lemma articles_without_node_have_no_type :
  ConnectionField.type articles
  = Raise (AssertionError "The type doesn't have a connection").
Proof.
  destruct (connection_field_needs_a_connection _ _ _ _ _ _ _ _ _ _ _ _ _ _ articles
              declared_is_built) as (_ & Hnone & _);
    [reflexivity | reflexivity | by apply Hnone].
Defined.

Lemma article_filter_arguments :
  default_filter_args articles
  = Ok [("id", Unmounted "ID" 103); ("headline", Unmounted "String" 104)]
  ∧ od_get "headline" [("id", Unmounted "ID" 103); ("headline", Unmounted "String" 104)]
    = Some (Unmounted "String" 104).
Proof.
  assert (default_filter_args articles
          = Ok [("id", Unmounted "ID" 103); ("headline", Unmounted "String" 104)])
    as Hderived by by vm_compute.
  split; [exact Hderived|].
  assert (NoDup (keys (fields articles))) as Hnd.
  { apply (bool_decide_unpack _). by vm_compute. }
  destruct (filter_arguments_follow_the_fields articles _ Hnd Hderived) as (_ & _ & Hget).
  apply (Hget "headline" (mkfield 4 (Some (non_null "String" 4))) (non_null "String" 4));
    [|done|done].
  apply (bool_decide_unpack _). by vm_compute.
Defined.

Lemma article_arguments_in_order :
  ∃ table,
    args articles = Ok table
    ∧ keys table = ["before"; "after"; "first"; "last"; "id"; "headline"].
Proof.
  assert (default_filter_args articles
          = Ok [("id", Unmounted "ID" 103); ("headline", Unmounted "String" 104)])
    as Hderived by by vm_compute.
  destruct (args articles) as [table|e] eqn:Htable; [|by vm_compute in Htable].
  exists table. split; [done|].
  destruct (args_lists_declared_then_derived articles _ _ Hderived Htable) as (_ & -> & _).
  by vm_compute.
Defined.

Lemma podium_arguments_cannot_be_built :
  is_ok (args podiums) = false.
Proof.
  assert (default_filter_args podiums
          = Ok [("id", Unmounted "ID" 109); ("first", Unmounted "String" 110)])
    as Hderived by by vm_compute.
  destruct (is_ok (args podiums)) eqn:Hok; [|done].
  apply (args_succeeds_iff podiums _ Hderived) in Hok as [Hnd _].
  exfalso. revert Hnd. apply (bool_decide_unpack _). by vm_compute.
Defined.

(** A parent that resolves its own articles is not filtered by
    [headline]: the argument reaches neither the store nor the list. *)
Lemma resolved_articles_are_not_filtered :
  (connection_resolver (λ _ _ _, IList [hello; world]) (PyClass Connection)
     (PyClass Article) None_ info {["headline" := VStr "World"]}).1
  = (connection_resolver (λ _ _ _, IList [hello; world]) (PyClass Connection)
       (PyClass Article) None_ info ∅).1.
Proof.
  by apply filters_do_not_apply_to_resolved_data.
Defined.



Lemma editors_have_distinct_external_ids :
  resolve_id (PyInst penny) ≠ resolve_id (PyInst grant).
Proof.
  intros Heq.
  destruct (resolve_id_is_injective_per_kind (PyInst penny) (PyInst grant) (VInt 1) (VInt 2))
    as [Hinj _]; [by vm_compute | by vm_compute |].
  by specialize (Hinj (or_introl (ex_intro _ 1 (ex_intro _ 2 (conj eq_refl eq_refl)))) Heq).
Defined.

